(** * A shallow embedding of the simple ETL pipeline

    Source: [05-data-engineering/projects/simple-etl/etl_example.py]
    ([extract_data], [transform_data], [load_data], [run_etl_pipeline]),
    and [categorize_salary] of
    [02-python-data-engineering/examples/pandas_basics.py].

    Conventions of the embedding.
    - Text is a [string] read as ASCII; the whitespace and case tables are
      those of Python's [str] for code points below 128.
    - A dictionary yielded by [csv.DictReader] is a finite map whose keys are
      [Some name] for a header name and [None] for the rest key, and whose
      values are strings, Python's [None] (the rest value of a short row),
      or the list of surplus cells.
    - [print] and the calls on the database connection append an [event]
      to a trace; timestamps are not recorded.
    - A call either returns a value or raises; [io A] pairs the trace with
      the way the call ended.
    - The calendar date that [datetime.now()] yields during a run is the
      parameter [today].
    - The target is a file that the process can open and write:
      [sqlite3.connect], [CREATE TABLE IF NOT EXISTS] and [commit] succeed.
      An [INSERT OR REPLACE] completes, raises an exception of the
      [sqlite3.Error] hierarchy, or raises [OverflowError] when an integer
      parameter does not fit SQLite's 64-bit INTEGER. *)

From Stdlib Require Import ZArith Ascii String List Bool Lia.
From stdpp Require Import base option list strings gmap fin_maps.

Local Open Scope Z_scope.

(** ** Python text *)

Module Py.

Definition ord (c : ascii) : Z := Z.of_N (N_of_ascii c).

Definition between (lo hi : Z) (c : ascii) : bool :=
  (lo <=? ord c) && (ord c <=? hi).

(** [str.isspace] on ASCII: TAB..CR, FS..US and the space. *)
Definition isspace (c : ascii) : bool := between 9 13 c || between 28 32 c.

(** [Py_ISSPACE], the set that [int] skips around an ASCII literal. *)
Definition c_isspace (c : ascii) : bool := between 9 13 c || (ord c =? 32).

Definition isupper (c : ascii) : bool := between 65 90 c.
Definition islower (c : ascii) : bool := between 97 122 c.
Definition iscased (c : ascii) : bool := isupper c || islower c.

Definition chr (z : Z) : ascii := ascii_of_N (Z.to_N z).

Definition tolower (c : ascii) : ascii := if isupper c then chr (ord c + 32) else c.
Definition toupper (c : ascii) : ascii := if islower c then chr (ord c - 32) else c.

Fixpoint lstrip_by (sp : ascii -> bool) (s : string) : string :=
  match s with
  | EmptyString => EmptyString
  | String c s' => if sp c then lstrip_by sp s' else s
  end.

Fixpoint rstrip_by (sp : ascii -> bool) (s : string) : string :=
  match s with
  | EmptyString => EmptyString
  | String c s' =>
      match rstrip_by sp s' with
      | EmptyString => if sp c then EmptyString else String c EmptyString
      | r => String c r
      end
  end.

(** [s.strip()] *)
Definition strip (s : string) : string := rstrip_by isspace (lstrip_by isspace s).

(** [s.lower()] *)
Fixpoint lower (s : string) : string :=
  match s with
  | EmptyString => EmptyString
  | String c s' => String (tolower c) (lower s')
  end.

(** [s.title()]: a cased character is upper-cased when the character before
    it is not cased, and lower-cased otherwise. *)
Fixpoint title_from (previous_is_cased : bool) (s : string) : string :=
  match s with
  | EmptyString => EmptyString
  | String c s' =>
      String (if previous_is_cased then tolower c else toupper c)
             (title_from (iscased c) s')
  end.

Definition title (s : string) : string := title_from false s.

(** [c in s] for a one-character [c]. *)
Fixpoint contains (c : ascii) (s : string) : bool :=
  match s with
  | EmptyString => false
  | String d s' => Ascii.eqb c d || contains c s'
  end.

(** Truth value of a string: non-empty. *)
Definition nonempty (s : string) : bool :=
  match s with EmptyString => false | _ => true end.

(** *** [int(s)] for a string [s], base 10 *)

Definition digit_value (c : ascii) : option Z :=
  if between 48 57 c then Some (ord c - 48) else None.

(** Default of [sys.get_int_max_str_digits()]. *)
Definition int_max_str_digits : Z := 4300.

(** Digits, single underscores allowed between two digits.  Returns the
    value and the number of digits read. *)
Fixpoint int_digits (s : string) (after_digit : bool) (acc count : Z)
  : option (Z * Z) :=
  match s with
  | EmptyString => if after_digit then Some (acc, count) else None
  | String c s' =>
      match digit_value c with
      | Some d => int_digits s' true (10 * acc + d) (count + 1)
      | None =>
          if Ascii.eqb c "_" && after_digit
          then int_digits s' false acc count
          else None
      end
  end.

Definition int_unsigned (s : string) : option Z :=
  match int_digits s false 0 0 with
  | Some (v, n) => if int_max_str_digits <? n then None else Some v
  | None => None
  end.

(** [None] stands for [ValueError: invalid literal for int()]. *)
Definition int_of_str (s : string) : option Z :=
  match rstrip_by c_isspace (lstrip_by c_isspace s) with
  | String "+" s' => int_unsigned s'
  | String "-" s' => option_map Z.opp (int_unsigned s')
  | s' => int_unsigned s'
  end.

End Py.

(** ** Values, records and control *)

(** A value held by a dictionary that [csv.DictReader] yields. *)
Inductive value :=
| VStr (s : string)
| VNone
| VList (cells : list string).

(** [record.get(k)] is [record !! Some k]; the key [None] is the rest key. *)
Abbreviation RawRecord := (gmap (option string) value).

Record CleanRecord := mkClean {
  c_id : Z;
  c_name : string;
  c_email : string;
  c_age : option Z;
  c_city : string;
  c_processed_date : string
}.

Inductive sqlite3_Error :=
| IntegrityError (msg : string)
| OperationalError (msg : string).

Inductive exn :=
| ValueError
| TypeError
| AttributeError
| FileNotFoundError
| OSError (errno : Z)
| OverflowError.

Inductive outcome (A : Type) :=
| Returned (a : A)
| Raised (e : exn).
Arguments Returned {A} a.
Arguments Raised {A} e.

Inductive line :=
| PExtracting (csv_file : string)
| PExtracted (n : nat)
| PFileNotFound (csv_file : string)
| PTransforming
| PSkipping (record : RawRecord)
| PTransformed (n : nat)
| PLoading
| PErrorInserting (id : Z) (e : sqlite3_Error)
| PLoaded (n : nat)
| PRule
| PStarting
| PNoData
| PCompleted.

(** What a connection is asked to do; an [INSERT OR REPLACE] carries the
    record bound to it and the error raised, if any; [SInsertUnbound] is
    an [INSERT OR REPLACE] whose parameters could not be bound. *)
Inductive statement :=
| SConnect
| SCreateTableIfNotExists
| SInsertOrReplace (record : CleanRecord) (raised : option sqlite3_Error)
| SInsertUnbound (record : CleanRecord)
| SCommit
| SClose.

Inductive event :=
| Printed (l : line)
| Sql (s : statement).

(** Effects so far, in order, and how the call ended. *)
Definition io (A : Type) : Type := list event * outcome A.

Definition ret {A} (a : A) : io A := ([], Returned a).
Definition raise {A} (e : exn) : io A := ([], Raised e).
Definition print (l : line) : io unit := ([Printed l], Returned tt).

Definition bind {A B} (m : io A) (k : A -> io B) : io B :=
  match m with
  | (out, Returned a) => let '(out', r) := k a in (out ++ out', r)
  | (out, Raised e) => (out, Raised e)
  end.

Definition lift {A} (o : outcome A) : io A := ([], o).

Definition obind {A B} (m : outcome A) (k : A -> outcome B) : outcome B :=
  match m with
  | Returned a => k a
  | Raised e => Raised e
  end.

Declare Scope io_scope.
Delimit Scope io_scope with io.
Notation "'let*' x ':=' m 'in' k" := (bind m (fun x => k))
  (at level 10, x name, m at level 100, k at level 200) : io_scope.
Notation "'run' m 'in' k" := (bind m (fun _ => k))
  (at level 10, m at level 100, k at level 200) : io_scope.

Declare Scope outcome_scope.
Delimit Scope outcome_scope with outcome.
Notation "'let*' x ':=' m 'in' k" := (obind m (fun x => k))
  (at level 10, x name, m at level 100, k at level 200) : outcome_scope.

(** ** Transform *)

Definition get (record : RawRecord) (k : string) : option value :=
  record !! Some k.

(** [int(record.get(k, 0))] *)
Definition int_get (record : RawRecord) (k : string) : outcome Z :=
  match get record k with
  | None => Returned 0
  | Some (VStr s) =>
      match Py.int_of_str s with
      | Some z => Returned z
      | None => Raised ValueError
      end
  | Some VNone | Some (VList _) => Raised TypeError
  end.

(** [record.get(k, '')] as the receiver of a [str] method. *)
Definition str_get (record : RawRecord) (k : string) : outcome string :=
  match get record k with
  | None => Returned EmptyString
  | Some (VStr s) => Returned s
  | Some VNone | Some (VList _) => Raised AttributeError
  end.

(** Truth value of [record.get(k)]. *)
Definition truthy_get (record : RawRecord) (k : string) : bool :=
  match get record k with
  | Some (VStr s) => Py.nonempty s
  | Some (VList cells) => match cells with [] => false | _ => true end
  | Some VNone | None => false
  end.

(** The dictionary display of [transform_data], evaluated key by key. *)
Definition transform_record (today : string) (record : RawRecord)
  : outcome CleanRecord :=
  (let* id := int_get record "id" in
   let* name := str_get record "name" in
   let* email := str_get record "email" in
   let* age := (if truthy_get record "age"
                then let* a := int_get record "age" in Returned (Some a)
                else Returned None) in
   let* city := str_get record "city" in
   Returned {| c_id := id;
               c_name := Py.title (Py.strip name);
               c_email := Py.lower (Py.strip email);
               c_age := age;
               c_city := Py.title (Py.strip city);
               c_processed_date := today |})%outcome.

(** [email and '@' in email] *)
Definition email_ok (email : string) : bool :=
  Py.nonempty email && Py.contains "@" email.

Fixpoint transform_loop (today : string) (data : list RawRecord)
    (transformed : list CleanRecord) : io (list CleanRecord) :=
  match data with
  | [] => ret transformed
  | record :: data' =>
      (let* transformed_record := lift (transform_record today record) in
       if email_ok (c_email transformed_record)
       then transform_loop today data' (transformed ++ [transformed_record])
       else run print (PSkipping record) in
            transform_loop today data' transformed)%io
  end.

Definition transform_data (today : string) (data : list RawRecord)
  : io (list CleanRecord) :=
  (run print PTransforming in
   let* transformed := transform_loop today data [] in
   run print (PTransformed (length transformed)) in
   ret transformed)%io.

Definition raw (fields : list (string * string)) : RawRecord :=
  foldl (fun d kv => <[Some kv.1 := VStr kv.2]> d) ∅ fields.

(** ** Extract *)

Section Extractor.

(** [csv.reader] over the text of a file: the rows it yields, a blank
    line being the empty row. *)
Variable csv_reader : string -> list (list string).

(** [open(path, 'r')] followed by reading the whole file. *)
Variable open_ : string -> outcome string.

(** [dict(zip(fieldnames, row))]: a later duplicate of a name wins. *)
Definition dict_zip (fieldnames row : list string) : RawRecord :=
  foldl (fun d kv => <[Some kv.1 := VStr kv.2]> d) ∅ (zip fieldnames row).

(** One step of [DictReader.__next__] on a non-blank row. *)
Definition row_dict (fieldnames row : list string) : RawRecord :=
  let d := dict_zip fieldnames row in
  let lf := length fieldnames in
  let lr := length row in
  if (lf <? lr)%nat then <[None := VList (drop lf row)]> d
  else if (lr <? lf)%nat
       then foldl (fun d key => <[Some key := VNone]> d) d (drop lr fieldnames)
       else d.

Definition blank (row : list string) : bool :=
  match row with [] => true | _ => false end.

(** The rows of [csv.DictReader(file)]: the first row names the fields,
    blank rows after it are skipped. *)
Definition DictReader (text : string) : list RawRecord :=
  match csv_reader text with
  | [] => []
  | fieldnames :: rows =>
      map (row_dict fieldnames) (List.filter (fun row => negb (blank row)) rows)
  end.

Definition extract_data (csv_file : string) : io (list RawRecord) :=
  (run print (PExtracting csv_file) in
   match open_ csv_file with
   | Returned text =>
       let data := DictReader text in
       run print (PExtracted (length data)) in
       ret data
   | Raised FileNotFoundError =>
       run print (PFileNotFound csv_file) in
       ret []
   | Raised e => raise e
   end)%io.

End Extractor.

(** ** The target database *)

Record Row := mkRow {
  r_name : string;
  r_email : string;
  r_age : option Z;
  r_city : string;
  r_processed_date : string
}.

(** The file named by [db_name]: missing, present without a [users] table,
    or holding [users] as a map from the primary key [id] to the other
    columns. *)
Inductive database :=
| NoFile
| NoTable
| Users (rows : gmap Z Row).

Record connection := mkConn {
  durable : database;
  working : database
}.

Definition row_of (record : CleanRecord) : Row :=
  {| r_name := c_name record;
     r_email := c_email record;
     r_age := c_age record;
     r_city := c_city record;
     r_processed_date := c_processed_date record |}.

(** A stored row collides with a record on [id INTEGER PRIMARY KEY] or on
    [email TEXT UNIQUE]. *)
Definition collides (record : CleanRecord) (kv : Z * Row) : Prop :=
  kv.1 = c_id record ∨ r_email kv.2 = c_email record.

#[global] Instance collides_dec record kv : Decision (collides record kv).
Proof. unfold collides. apply _. Defined.

(** [INSERT OR REPLACE]: the rows that collide are deleted, then the new
    row is inserted. *)
Definition upsert (record : CleanRecord) (rows : gmap Z Row) : gmap Z Row :=
  <[c_id record := row_of record]> (filter (fun kv => ¬ collides record kv) rows).

(** [sqlite3.connect(db_name)] creates the file when it is missing. *)
Definition connect (db : database) : connection :=
  let file := match db with NoFile => NoTable | _ => db end in
  {| durable := file; working := file |}.

Definition create_users (db : database) : database :=
  match db with
  | Users rows => Users rows
  | NoFile | NoTable => Users ∅
  end.

(** [CREATE TABLE IF NOT EXISTS users (...)], run while no transaction is
    open: it takes effect in the file at once. *)
Definition execute_create (conn : connection) : connection :=
  {| durable := create_users (durable conn);
     working := create_users (working conn) |}.

Definition commit (conn : connection) : connection :=
  {| durable := working conn; working := working conn |}.

(** Closing drops what was not committed. *)
Definition close (conn : connection) : database := durable conn.

(** SQLite's INTEGER is a signed 64-bit integer. *)
Definition int64_min : Z := - 2 ^ 63.
Definition int64_max : Z := 2 ^ 63 - 1.

Definition fits_int64 (z : Z) : bool := (int64_min <=? z) && (z <=? int64_max).

(** The integers of a record can be bound as parameters; an integer out
    of range makes the binding raise [OverflowError]. *)
Definition binds (record : CleanRecord) : bool :=
  fits_int64 (c_id record)
  && match c_age record with
     | Some age => fits_int64 age
     | None => true
     end.

Section Loader.

(** Failures of a statement that the conflict clause does not resolve (a
    constraint of a [users] table created elsewhere, a locked or full
    file), as a function of the table and of the record bound. *)
Variable fault : gmap Z Row -> CleanRecord -> option sqlite3_Error.

(** How [cursor.execute('INSERT OR REPLACE ...', (...))] ends. *)
Inductive executed :=
| Completed (conn : connection)
| RaisedSqlite (e : sqlite3_Error)
| RaisedOther (e : exn).

(** [cursor.execute('INSERT OR REPLACE ...', (...))]: the parameters are
    bound first, then the statement runs; a statement that fails leaves
    the table as it was. *)
Definition execute_insert (conn : connection) (record : CleanRecord)
  : executed :=
  if binds record then
    match working conn with
    | Users rows =>
        match fault rows record with
        | Some e => RaisedSqlite e
        | None => Completed {| durable := durable conn;
                               working := Users (upsert record rows) |}
        end
    | NoFile | NoTable => RaisedSqlite (OperationalError "no such table: users")
    end
  else RaisedOther OverflowError.

(** The loop of [load_data]: [except sqlite3.Error] catches the second
    case only; any other exception leaves the loop and the function. *)
Fixpoint load_loop (data : list CleanRecord) (conn : connection)
    (inserted : nat) : list event * (connection * outcome nat) :=
  match data with
  | [] => ([], (conn, Returned inserted))
  | record :: data' =>
      match execute_insert conn record with
      | Completed conn' =>
          let '(out, r) := load_loop data' conn' (S inserted) in
          (Sql (SInsertOrReplace record None) :: out, r)
      | RaisedSqlite e =>
          let '(out, r) := load_loop data' conn inserted in
          (Sql (SInsertOrReplace record (Some e))
             :: Printed (PErrorInserting (c_id record) e) :: out, r)
      | RaisedOther e => ([Sql (SInsertUnbound record)], (conn, Raised e))
      end
  end.

(** Returns the trace, the outcome and the file as the call leaves it:
    after [conn.commit()] and [conn.close()] when the loop ends, and with
    the open transaction of the abandoned connection rolled back when an
    exception leaves the loop. *)
Definition load_data (data : list CleanRecord) (db : database)
  : io unit * database :=
  let conn := execute_create (connect db) in
  match load_loop data conn 0 with
  | (out, (conn', Returned inserted)) =>
      (([Printed PLoading; Sql SConnect; Sql SCreateTableIfNotExists]
          ++ out ++ [Sql SCommit; Sql SClose; Printed (PLoaded inserted)],
        Returned tt),
       close (commit conn'))
  | (out, (conn', Raised e)) =>
      (([Printed PLoading; Sql SConnect; Sql SCreateTableIfNotExists] ++ out,
        Raised e),
       close conn')
  end.

End Loader.

(** ** The pipeline *)

Section Orchestrator.

Variable csv_reader : string -> list (list string).
Variable open_ : string -> outcome string.
Variable today : string.
Variable fault : gmap Z Row -> CleanRecord -> option sqlite3_Error.

(** The trace and outcome of the call, and the target file after it. *)
Definition run_etl_pipeline (source_file : string) (target_db : database)
  : io unit * database :=
  match (run print PRule in run print PStarting in run print PRule in
         extract_data csv_reader open_ source_file)%io with
  | (out, Raised e) => ((out, Raised e), target_db)
  | (out, Returned []) => ((out ++ [Printed PNoData], Returned tt), target_db)
  | (out, Returned raw_data) =>
      match transform_data today raw_data with
      | (out', Raised e) => ((out ++ out', Raised e), target_db)
      | (out', Returned clean_data) =>
          match load_data fault clean_data target_db with
          | ((out'', Returned _), db) =>
              ((out ++ out' ++ out''
                  ++ [Printed PRule; Printed PCompleted; Printed PRule],
                Returned tt),
               db)
          | ((out'', Raised e), db) => ((out ++ out' ++ out'', Raised e), db)
          end
      end
  end.

End Orchestrator.

(** No failure besides the conflicts that [OR REPLACE] resolves. *)
Definition no_fault : gmap Z Row -> CleanRecord -> option sqlite3_Error :=
  fun _ _ => None.

(** ** A reader for unquoted text

    What [csv.reader] yields on text without quotes or carriage returns:
    lines end at a line feed, cells at a comma. *)

Fixpoint split_on (sep : ascii) (s : string) : list string :=
  match s with
  | EmptyString => [EmptyString]
  | String c s' =>
      if Ascii.eqb c sep then EmptyString :: split_on sep s'
      else match split_on sep s' with
           | piece :: pieces => String c piece :: pieces
           | [] => [String c EmptyString]
           end
  end.

Definition text_lines (text : string) : list string :=
  let pieces := split_on "010" text in
  match last pieces with
  | Some EmptyString => removelast pieces
  | _ => pieces
  end.

Definition plain_reader (text : string) : list (list string) :=
  map (fun l => match l with EmptyString => [] | _ => split_on "," l end)
      (text_lines text).

(** A file system holding one file. *)
Definition one_file (path text : string) : string -> outcome string :=
  fun p => if String.eqb p path then Returned text else Raised FileNotFoundError.

Definition sample_csv : string :=
  "id,name,email,age,city" ++ String "010"
  (" 1, alice , A@B.com ,25,ny" ++ String "010"
  ("2,bob,not-an-email,,sf" ++ String "010" EmptyString)).

Definition rows_of (db : database) : gmap Z Row :=
  match db with
  | Users rows => rows
  | NoFile | NoTable => ∅
  end.

(** ** Vocabulary of the statements *)

(** The e-mail of a record as [transform_data] normalizes it; an absent
    field reads as the empty string. *)
Definition normalized_email (record : RawRecord) : string :=
  match get record "email" with
  | Some (VStr s) => Py.lower (Py.strip s)
  | _ => Py.lower (Py.strip EmptyString)
  end.

Definition kept (record : RawRecord) : bool := email_ok (normalized_email record).

Definition is_str (v : value) : bool :=
  match v with VStr _ => true | _ => false end.

(** Every field that is present holds a string. *)
Definition strings_only (record : RawRecord) : bool :=
  bool_decide (map_Forall (fun _ v => is_str v = true) record).

Definition int_literal (s : string) : bool :=
  match Py.int_of_str s with Some _ => true | None => false end.

Definition id_ok (record : RawRecord) : bool :=
  match get record "id" with
  | Some (VStr s) => int_literal s
  | _ => true
  end.

Definition age_ok (record : RawRecord) : bool :=
  match get record "age" with
  | Some (VStr s) => negb (Py.nonempty s) || int_literal s
  | _ => true
  end.

Definition well_formed (record : RawRecord) : bool :=
  strings_only record && id_ok record && age_ok record.

Definition skipping (record : RawRecord) : event := Printed (PSkipping record).

(** The text a [str] method receives from [record.get(k, '')]. *)
Definition text (record : RawRecord) (k : string) : string :=
  match get record k with
  | Some (VStr s) => s
  | _ => EmptyString
  end.

Definition c1_batch : list RawRecord :=
  [raw [("id", "1"); ("name", "alice"); ("email", "a@b.com")];
   raw [("id", "abc"); ("name", "bob"); ("email", "bob@b.com")]].

Definition c2_record : RawRecord :=
  raw [("id", "abc"); ("name", "bob"); ("email", "bob@b.com")].

(** ** Load: vocabulary *)

(** The records bound to the [INSERT OR REPLACE] statements of a trace. *)
Definition attempted (out : list event) : list CleanRecord :=
  omap (fun e => match e with
                 | Sql (SInsertOrReplace r _) => Some r
                 | Sql (SInsertUnbound r) => Some r
                 | _ => None
                 end) out.

Definition succeeded (out : list event) : list CleanRecord :=
  omap (fun e => match e with
                 | Sql (SInsertOrReplace r None) => Some r
                 | _ => None
                 end) out.

Definition failed (out : list event) : list (Z * sqlite3_Error) :=
  omap (fun e => match e with
                 | Sql (SInsertOrReplace r (Some err)) => Some (c_id r, err)
                 | _ => None
                 end) out.

Definition reported (out : list event) : list (Z * sqlite3_Error) :=
  omap (fun e => match e with
                 | Printed (PErrorInserting id err) => Some (id, err)
                 | _ => None
                 end) out.

Definition commits (out : list event) : nat :=
  length (omap (fun e => match e with
                         | Sql SCommit => Some tt
                         | _ => None
                         end) out).

(** The upserts of a batch, one after the other. *)
Definition load_rows (data : list CleanRecord) (rows : gmap Z Row) : gmap Z Row :=
  foldl (fun t r => upsert r t) rows data.

(** A stored row that no record of the batch collides with. *)
Definition untouched (data : list CleanRecord) (kv : Z * Row) : Prop :=
  Forall (fun r => ¬ collides r kv) data.

#[global] Instance untouched_dec data kv : Decision (untouched data kv).
Proof. unfold untouched. apply _. Defined.

(** A store that refuses the records with id 2. *)
Definition refuse_2 : gmap Z Row -> CleanRecord -> option sqlite3_Error :=
  fun _ r => if c_id r =? 2 then Some (IntegrityError "CHECK constraint failed: users")
             else None.

Definition c8_batch : list CleanRecord :=
  [mkClean 1 "Ann" "ann@x.org" None "Oslo" "d";
   mkClean 2 "Bob" "bob@x.org" (Some 30) "Rome" "d";
   mkClean 3 "Cy" "cy@x.org" None "Oslo" "d"].

Definition c9_batch : list CleanRecord :=
  [mkClean 0 "Ann" "ann@x.org" None "Oslo" "d";
   mkClean 0 "Bob" "bob@x.org" None "Oslo" "d";
   mkClean 1 "Rob" "bob@x.org" None "Oslo" "d"].

(** ** Fixed parts of the trace of a run *)

Definition heading : list event := [Printed PRule; Printed PStarting; Printed PRule].
Definition closing : list event := [Printed PRule; Printed PCompleted; Printed PRule].

Definition rejected_csv : string :=
  "id,name,email" ++ String "010" ("1,ann,ann-at-x.org" ++ String "010" EmptyString).

(** ** Further vocabulary *)

(** The records reported as skipped in a trace. *)
Definition skipped (out : list event) : list RawRecord :=
  omap (fun e => match e with
                 | Printed (PSkipping r) => Some r
                 | _ => None
                 end) out.

(** The calls on the connection in a trace. *)
Definition statements (out : list event) : list statement :=
  omap (fun e => match e with
                 | Sql s => Some s
                 | _ => None
                 end) out.

(** No two rows of the table share an e-mail. *)
Definition unique_emails (rows : gmap Z Row) : Prop :=
  forall k1 k2 x1 x2,
    rows !! k1 = Some x1 -> rows !! k2 = Some x2 ->
    r_email x1 = r_email x2 -> k1 = k2.

(** The table after the statements of a batch, failures included. *)
Fixpoint load_rows_with (fault : gmap Z Row -> CleanRecord -> option sqlite3_Error)
    (data : list CleanRecord) (rows : gmap Z Row) : gmap Z Row :=
  match data with
  | [] => rows
  | r :: data' =>
      load_rows_with fault data'
        (match fault rows r with
         | Some _ => rows
         | None => upsert r rows
         end)
  end.

(** [s.isascii()] *)
Fixpoint isascii (s : string) : bool :=
  match s with
  | EmptyString => true
  | String c s' => (Py.ord c <? 128) && isascii s'
  end.

(** Two records with a valid e-mail, the second with an [id] that is not
    an integer literal. *)
Definition c3_batch : list RawRecord :=
  [raw [("id", "1"); ("email", "ok@b.c")];
   raw [("id", "x"); ("email", "a@b.c")]].


(** A source whose only record has an id of 2^63. *)
Definition overflow_csv : string :=
  "id,email" ++ String "010" ("9223372036854775808,a@b.c" ++ String "010" EmptyString).


(** ** [categorize_salary] of [pandas_basics.py], on integer salaries *)

Definition categorize_salary (salary : Z) : string :=
  if salary <? 75000 then "Low"
  else if salary <? 85000 then "Medium"
  else "High".

(** The order Low < Medium < High on the labels. *)
Definition category_rank (label : string) : nat :=
  if String.eqb label "Low" then 0
  else if String.eqb label "Medium" then 1
  else 2.

(** * Properties *)

Example strip_title_alice : Py.title (Py.strip "  alice  ") = "Alice"%string.
Proof. reflexivity. Qed.

Example int_of_str_samples :
  Py.int_of_str " 12 " = Some 12 /\ Py.int_of_str "-007" = Some (-7) /\
  Py.int_of_str "1_000" = Some 1000 /\ Py.int_of_str "1__0" = None /\
  Py.int_of_str EmptyString = None /\ Py.int_of_str "abc" = None /\
  Py.int_of_str "- 1" = None /\ Py.int_of_str "1.5" = None.
Proof. repeat split; reflexivity. Qed.

Example transform_scenario :
  transform_data "2024-01-01"
    [raw [("id", "1"); ("name", " alice "); ("email", " A@B.com ");
          ("age", "25"); ("city", "ny")];
     raw [("id", "2"); ("name", "bob"); ("email", "not-an-email");
          ("age", EmptyString); ("city", "sf")]]
  = ([Printed PTransforming;
      Printed (PSkipping (raw [("id", "2"); ("name", "bob");
                             ("email", "not-an-email"); ("age", EmptyString); ("city", "sf")]));
      Printed (PTransformed 1)],
     Returned [mkClean 1 "Alice" "a@b.com" (Some 25) "Ny" "2024-01-01"]).
Proof. vm_compute. reflexivity. Qed.

Example plain_reader_sample :
  plain_reader sample_csv =
  [["id"; "name"; "email"; "age"; "city"];
   [" 1"; " alice "; " A@B.com "; "25"; "ny"];
   ["2"; "bob"; "not-an-email"; EmptyString; "sf"]]%string.
Proof. vm_compute. reflexivity. Qed.

Example pipeline_scenario :
  (run_etl_pipeline plain_reader (one_file "in.csv" sample_csv) "2024-01-01"
     no_fault "in.csv" NoFile).2
  = Users {[ 1 := mkRow "Alice" "a@b.com" (Some 25) "Ny" "2024-01-01" ]}.
Proof. vm_compute. reflexivity. Qed.

Example pipeline_overflow_scenario :
  run_etl_pipeline plain_reader (one_file "in.csv" overflow_csv) "d" no_fault
    "in.csv" NoFile
  = ((heading
        ++ [Printed (PExtracting "in.csv"); Printed (PExtracted 1);
            Printed PTransforming; Printed (PTransformed 1);
            Printed PLoading; Sql SConnect; Sql SCreateTableIfNotExists;
            Sql (SInsertUnbound (mkClean (2 ^ 63) EmptyString "a@b.c" None EmptyString "d"))],
      Raised OverflowError),
     Users ∅).
Proof. vm_compute. reflexivity. Qed.

(** ** Transform: lemmas *)

Lemma strings_only_get record k :
  strings_only record = true ->
  get record k = None \/ exists s, get record k = Some (VStr s).
Proof.
  intros H. apply bool_decide_eq_true in H.
  unfold get. destruct (record !! Some k) as [v|] eqn:E; [right|by left].
  specialize (H _ _ E). destruct v; try discriminate. eauto.
Qed.

Lemma str_get_strings_only record k :
  strings_only record = true -> exists s, str_get record k = Returned s.
Proof.
  intros H. unfold str_get.
  destruct (strings_only_get record k H) as [->|[s ->]]; eauto.
Qed.

Lemma transform_record_total today record :
  well_formed record = true -> exists c, transform_record today record = Returned c.
Proof.
  unfold well_formed. rewrite !andb_true_iff. intros [[Hs Hid] Hage].
  unfold transform_record.
  destruct (str_get_strings_only record "name" Hs) as [n ->].
  destruct (str_get_strings_only record "email" Hs) as [e ->].
  destruct (str_get_strings_only record "city" Hs) as [c ->].
  assert (exists i, int_get record "id" = Returned i) as [i ->].
  { unfold int_get, id_ok, int_literal in *.
    destruct (strings_only_get record "id" Hs) as [->|[s E]]; [eauto|].
    rewrite E in *. destruct (Py.int_of_str s); [eauto|discriminate]. }
  assert (exists a, (if truthy_get record "age"
                     then obind (int_get record "age") (fun a => Returned (Some a))
                     else Returned None) = Returned a) as [a ->].
  { unfold truthy_get, int_get, age_ok, int_literal in *.
    destruct (strings_only_get record "age" Hs) as [->|[s E]]; [eauto|].
    rewrite E in *. destruct (Py.nonempty s); [|eauto].
    simpl in Hage. destruct (Py.int_of_str s); [simpl; eauto|discriminate]. }
  simpl. eauto.
Qed.

Lemma transform_record_inv today record c :
  transform_record today record = Returned c ->
  exists id name email age city,
    int_get record "id" = Returned id /\
    str_get record "name" = Returned name /\
    str_get record "email" = Returned email /\
    str_get record "city" = Returned city /\
    (if truthy_get record "age"
     then int_get record "age" = Returned age /\ c_age c = Some age
     else c_age c = None) /\
    c = mkClean id (Py.title (Py.strip name)) (Py.lower (Py.strip email))
          (c_age c) (Py.title (Py.strip city)) today.
Proof.
  unfold transform_record. intros H.
  destruct (int_get record "id") as [i|]; [simpl in H|discriminate].
  destruct (str_get record "name") as [n|]; [simpl in H|discriminate].
  destruct (str_get record "email") as [e|]; [simpl in H|discriminate].
  destruct (truthy_get record "age").
  - destruct (int_get record "age") as [a|]; [simpl in H|discriminate].
    destruct (str_get record "city") as [ci|]; [simpl in H|discriminate].
    inversion H; subst; clear H. exists i, n, e, a, ci. simpl. tauto.
  - simpl in H.
    destruct (str_get record "city") as [ci|]; [simpl in H|discriminate].
    inversion H; subst; clear H. exists i, n, e, 0, ci. simpl. tauto.
Qed.

Lemma transform_record_email today record c :
  transform_record today record = Returned c ->
  c_email c = normalized_email record.
Proof.
  intros H. destruct (transform_record_inv _ _ _ H)
    as (i & n & e & a & ci & _ & _ & He & _ & _ & ->). simpl.
  unfold str_get in He. unfold normalized_email.
  destruct (get record "email") as [[s| |l]|]; by inversion He.
Qed.

Lemma transform_loop_returns today data :
  forall transformed,
    Forall (fun r => exists c, transform_record today r = Returned c) data ->
    exists res,
      transform_loop today data transformed
      = (map skipping (List.filter (fun r => negb (kept r)) data),
         Returned (transformed ++ res)) /\
      Forall2 (fun r c => transform_record today r = Returned c)
              (List.filter kept data) res.
Proof.
  induction data as [|record data IH]; intros transformed Hall.
  - exists []. rewrite app_nil_r. split; [reflexivity|constructor].
  - inversion Hall as [|? ? [c Hc] Hrest]; subst.
    simpl transform_loop. rewrite Hc. unfold lift, bind.
    simpl List.filter.
    assert (kept record = email_ok (c_email c)) as ->
      by (unfold kept; by rewrite (transform_record_email _ _ _ Hc)).
    destruct (email_ok (c_email c)) eqn:Eok; simpl negb; cbv iota.
    + destruct (IH (transformed ++ [c]) Hrest) as (res & -> & HF).
      exists (c :: res). rewrite <- app_assoc. simpl. split; [reflexivity|].
      by constructor.
    + destruct (IH transformed Hrest) as (res & -> & HF).
      exists res. split; [reflexivity|done].
Qed.

Lemma transform_loop_returned_inv today data :
  forall transformed out res,
    transform_loop today data transformed = (out, Returned res) ->
    Forall (fun r => exists c, transform_record today r = Returned c) data.
Proof.
  induction data as [|record data IH]; intros transformed out res H.
  - constructor.
  - simpl in H. destruct (transform_record today record) as [c|e] eqn:Hc.
    + unfold lift, bind in H. constructor; [eauto|].
      destruct (email_ok (c_email c)).
      * destruct (transform_loop today data (transformed ++ [c])) as [o r] eqn:E.
        simpl in H. inversion H; subst. eapply IH; eauto.
      * unfold print in H.
        destruct (transform_loop today data transformed) as [o r] eqn:E.
        simpl in H. inversion H; subst. eapply IH; eauto.
    + discriminate.
Qed.

Lemma transform_data_eq today data :
  transform_data today data
  = match transform_loop today data [] with
    | (out, Returned res) =>
        (Printed PTransforming :: out ++ [Printed (PTransformed (length res))],
         Returned res)
    | (out, Raised e) => (Printed PTransforming :: out, Raised e)
    end.
Proof.
  unfold transform_data, bind, print, ret.
  destruct (transform_loop today data []) as [out [res|e]]; reflexivity.
Qed.

Lemma transform_data_returned today data out res :
  transform_data today data = (out, Returned res) ->
  out = Printed PTransforming
          :: map skipping (List.filter (fun r => negb (kept r)) data)
          ++ [Printed (PTransformed (length res))] /\
  Forall2 (fun r c => transform_record today r = Returned c)
          (List.filter kept data) res.
Proof.
  rewrite transform_data_eq. intros H.
  destruct (transform_loop today data []) as [o [r|e]] eqn:E; [|discriminate].
  inversion H; subst; clear H.
  pose proof (transform_loop_returned_inv _ _ _ _ _ E) as Hall.
  destruct (transform_loop_returns today data [] Hall) as (res' & E' & HF).
  rewrite E in E'. inversion E'; subst. done.
Qed.

Lemma str_get_text record k s : str_get record k = Returned s -> s = text record k.
Proof.
  unfold str_get, text. destruct (get record k) as [[?| |?]|]; intros H; by inversion H.
Qed.

(** C1, as stated, fails: a batch of records whose fields are all strings,
    the second with an [id] that is not an integer literal, makes
    [transform_data] raise [ValueError]; nothing is returned, not even the
    first, valid record. *)
Lemma C1_counterexample :
  forallb strings_only c1_batch = true /\
  transform_data "2024-01-01" c1_batch = ([Printed PTransforming], Raised ValueError).
Proof. split; vm_compute; reflexivity. Qed.

(** C1, amended: for every sequence of RawRecords whose present fields are
    strings, whose [id], when present, is an integer literal and whose
    [age], when present and non-empty, is an integer literal,
    [transform_data] returns normally; the records whose normalized e-mail
    fails the check are dropped and reported one by one, in order, and the
    others are returned cleaned, in order, up to the end of the input. *)
Theorem C1_transform_returns today data :
  forallb well_formed data = true ->
  exists res,
    transform_data today data
    = (Printed PTransforming
         :: map skipping (List.filter (fun r => negb (kept r)) data)
         ++ [Printed (PTransformed (length res))],
       Returned res) /\
    Forall2 (fun r c => transform_record today r = Returned c)
            (List.filter kept data) res.
Proof.
  intros Hwf.
  assert (Forall (fun r => exists c, transform_record today r = Returned c) data) as Hall.
  { apply Forall_forall. intros r Hr. apply transform_record_total.
    rewrite forallb_forall in Hwf. apply Hwf. by apply list_elem_of_In. }
  destruct (transform_loop_returns today data [] Hall) as (res & E & HF).
  exists res. split; [|done].
  rewrite transform_data_eq, E. reflexivity.
Qed.

Lemma C1_transform_returns_witness :
  exists res,
    transform_data "2024-01-01"
      [raw [("id", "1"); ("email", "A@B.com"); ("age", EmptyString)]; raw [("name", "x")]]
    = (Printed PTransforming
         :: map skipping (List.filter (fun r => negb (kept r))
              [raw [("id", "1"); ("email", "A@B.com"); ("age", EmptyString)];
               raw [("name", "x")]])
         ++ [Printed (PTransformed (length res))],
       Returned res) /\
    Forall2 (fun r c => transform_record "2024-01-01" r = Returned c)
            (List.filter kept
               [raw [("id", "1"); ("email", "A@B.com"); ("age", EmptyString)];
                raw [("name", "x")]]) res.
Proof. apply C1_transform_returns. vm_compute. reflexivity. Defined.

(** C2, as stated, fails: on a record whose [id] is the string "abc",
    which is not an integer literal, no record with id 0 is produced;
    [transform_record] raises [ValueError]. *)
Lemma C2_counterexample :
  get c2_record "id" = Some (VStr "abc") /\
  Py.int_of_str "abc" = None /\
  transform_record "2024-01-01" c2_record = Raised ValueError.
Proof. repeat split; vm_compute; reflexivity. Qed.

(** C2, amended: for every RawRecord that is transformed, the id of the
    transformed record is the integer parse of the raw [id] string, and is
    0 when the [id] field is absent; when the raw [id] is a string that is
    not an integer literal, the transformation raises [ValueError] and
    produces no record. *)
Theorem C2_id_field today record :
  (forall c, transform_record today record = Returned c ->
     match get record "id" with
     | None => c_id c = 0
     | Some (VStr s) => Py.int_of_str s = Some (c_id c)
     | Some _ => False
     end) /\
  (forall s, get record "id" = Some (VStr s) -> Py.int_of_str s = None ->
     transform_record today record = Raised ValueError).
Proof.
  split.
  - intros c H. destruct (transform_record_inv _ _ _ H)
      as (i & n & e & a & ci & Hi & _ & _ & _ & _ & ->). simpl.
    unfold int_get in Hi. destruct (get record "id") as [[s| |l]|]; try discriminate.
    + destruct (Py.int_of_str s); by inversion Hi.
    + by inversion Hi.
  - intros s Hg Hs. unfold transform_record, int_get. rewrite Hg, Hs. reflexivity.
Qed.

Lemma C2_id_field_witness :
  Py.int_of_str " 42 " = Some (c_id (mkClean 42 EmptyString "a@b" None EmptyString "d")) /\
  c_id (mkClean 0 EmptyString "a@b" None EmptyString "d") = 0 /\
  transform_record "d" c2_record = Raised ValueError.
Proof.
  split; [|split].
  - exact (proj1 (C2_id_field "d" (raw [("id", " 42 "); ("email", "a@b")])) _ eq_refl).
  - exact (proj1 (C2_id_field "d" (raw [("email", "a@b")])) _ eq_refl).
  - exact (proj2 (C2_id_field "d" c2_record) "abc" eq_refl eq_refl).
Defined.

(** C7: every record in the output of [transform_data] comes from a raw
    record that was kept, with name and city the raw texts stripped and
    title-cased, and e-mail the raw text stripped and lower-cased; the three
    sample texts normalize as the specification lists them. *)
Theorem C7_normalization :
  (forall today data out res c,
     transform_data today data = (out, Returned res) ->
     In c res ->
     exists record,
       In record data /\ kept record = true /\
       transform_record today record = Returned c /\
       c_name c = Py.title (Py.strip (text record "name")) /\
       c_city c = Py.title (Py.strip (text record "city")) /\
       c_email c = Py.lower (Py.strip (text record "email"))) /\
  Py.title (Py.strip "  alice  ") = "Alice"%string /\
  Py.title (Py.strip "new york") = "New York"%string /\
  Py.lower (Py.strip "  Bob@EXAMPLE.com ") = "bob@example.com"%string.
Proof.
  split; [|repeat split; reflexivity].
  intros today data out res c H Hc.
  destruct (transform_data_returned _ _ _ _ H) as [_ HF].
  apply list_elem_of_In in Hc.
  apply list_elem_of_lookup in Hc as [i Hi].
  destruct (Forall2_lookup_r _ _ _ _ _ HF Hi) as (record & Hr & Ht).
  apply list_elem_of_lookup_2, list_elem_of_In, filter_In in Hr as [Hin Hk].
  exists record. repeat split; try done.
  all: destruct (transform_record_inv _ _ _ Ht)
         as (i0 & n & e & a & ci & _ & Hn & He & Hci & _ & ->); simpl;
       by rewrite <- ?(str_get_text _ _ _ Hn), <- ?(str_get_text _ _ _ He),
                  <- ?(str_get_text _ _ _ Hci).
Qed.

Lemma C7_normalization_witness :
  exists record,
    In record [raw [("name", " alice "); ("email", " A@B.com "); ("city", "ny")]] /\
    kept record = true /\
    transform_record "d" record = Returned (mkClean 0 "Alice" "a@b.com" None "Ny" "d") /\
    c_name (mkClean 0 "Alice" "a@b.com" None "Ny" "d")
      = Py.title (Py.strip (text record "name")) /\
    c_city (mkClean 0 "Alice" "a@b.com" None "Ny" "d")
      = Py.title (Py.strip (text record "city")) /\
    c_email (mkClean 0 "Alice" "a@b.com" None "Ny" "d")
      = Py.lower (Py.strip (text record "email")).
Proof.
  refine (proj1 C7_normalization "d"
            [raw [("name", " alice "); ("email", " A@B.com "); ("city", "ny")]]
            _ _ _ eq_refl _).
  simpl. left. reflexivity.
Defined.

(** ** Load: lemmas *)

Lemma upsert_lookup_Some r (rows : gmap Z Row) k x :
  upsert r rows !! k = Some x <->
  (k = c_id r /\ x = row_of r) \/
  (k <> c_id r /\ rows !! k = Some x /\ r_email x <> c_email r).
Proof.
  unfold upsert. rewrite lookup_insert_Some, map_lookup_filter_Some.
  unfold collides. simpl. intuition congruence.
Qed.

Lemma upsert_lookup_self r (rows : gmap Z Row) :
  upsert r rows !! c_id r = Some (row_of r).
Proof. apply upsert_lookup_Some. by left. Qed.

Lemma load_rows_cons r data (rows : gmap Z Row) :
  load_rows (r :: data) rows = load_rows data (upsert r rows).
Proof. reflexivity. Qed.

Lemma load_rows_app data1 data2 (rows : gmap Z Row) :
  load_rows (data1 ++ data2) rows = load_rows data2 (load_rows data1 rows).
Proof. unfold load_rows. apply foldl_app. Qed.

(** A row survives the upserts of records that do not collide with it. *)
Lemma load_rows_keeps data :
  forall (rows : gmap Z Row) k x,
    rows !! k = Some x ->
    untouched data (k, x) ->
    load_rows data rows !! k = Some x.
Proof.
  induction data as [|r data IH]; intros rows k x Hk Hu; [done|].
  rewrite load_rows_cons. inversion Hu as [|? ? Hr Hrest]; subst.
  apply IH; [|done]. apply upsert_lookup_Some. right.
  unfold collides in Hr. simpl in Hr. naive_solver.
Qed.

(** A row of the table after the upserts was there before or is one of the
    records. *)
Lemma load_rows_lookup_inv data :
  forall (rows : gmap Z Row) k x,
    load_rows data rows !! k = Some x ->
    rows !! k = Some x \/ exists r, In r data /\ k = c_id r /\ x = row_of r.
Proof.
  induction data as [|r data IH]; intros rows k x H; [by left|].
  rewrite load_rows_cons in H. apply IH in H as [H|(r' & Hin & -> & ->)].
  - apply upsert_lookup_Some in H as [[-> ->]|(_ & H & _)]; [right|by left].
    exists r. simpl. auto.
  - right. exists r'. simpl. auto.
Qed.

(** The table after a batch depends on the table before only through the
    rows the batch does not touch. *)
Lemma load_rows_untouched_ext data :
  forall rows rows' : gmap Z Row,
    filter (untouched data) rows = filter (untouched data) rows' ->
    load_rows data rows = load_rows data rows'.
Proof.
  induction data as [|r data IH]; intros rows rows' H.
  - simpl. apply map_eq. intros i. apply option_eq. intros x.
    pose proof (map_filter_strong_ext_2 _ _ _ _ i x H) as Hix.
    unfold untouched in Hix. split; intros Hx.
    + apply Hix. split; [constructor|done].
    + apply Hix. split; [constructor|done].
  - rewrite !load_rows_cons. apply IH. apply map_filter_strong_ext_1.
    intros i x. rewrite !upsert_lookup_Some.
    pose proof (map_filter_strong_ext_2 _ _ _ _ i x H) as Hix.
    unfold untouched in *. rewrite !Forall_cons in Hix.
    unfold collides in Hix at 1 3. simpl in Hix. intuition congruence.
Qed.

Lemma load_rows_filter data :
  forall (P : Z * Row -> Prop) `{!forall kv, Decision (P kv)} (rows : gmap Z Row),
    (forall kv, P kv -> untouched data kv) ->
    filter P (load_rows data rows) = filter P rows.
Proof.
  induction data as [|r data IH]; intros P HP rows Hsub; [done|].
  rewrite load_rows_cons.
  rewrite IH by (intros kv Hkv; specialize (Hsub kv Hkv); by inversion Hsub).
  apply map_filter_strong_ext_1. intros i x. rewrite upsert_lookup_Some.
  split.
  - intros [HPx [[-> ->]|(? & ? & ?)]]; [|done].
    specialize (Hsub _ HPx). inversion Hsub as [|? ? Hr _]; subst.
    exfalso. apply Hr. by left.
  - intros [HPx Hx]. split; [done|]. right.
    specialize (Hsub _ HPx). inversion Hsub as [|? ? Hr _]; subst.
    unfold collides in Hr. simpl in Hr. naive_solver.
Qed.

(** Loading a batch a second time changes nothing. *)
Lemma load_rows_idempotent data (rows : gmap Z Row) :
  load_rows data (load_rows data rows) = load_rows data rows.
Proof.
  apply load_rows_untouched_ext. by apply load_rows_filter.
Qed.

Lemma succeeded_attempted out r : In r (succeeded out) -> In r (attempted out).
Proof.
  unfold succeeded, attempted.
  induction out as [|e out IH]; [done|]. simpl.
  destruct e as [l|[| |r' [err|]|r'| |]]; simpl; auto.
  intros [->|H]; auto.
Qed.


Lemma load_rows_with_no_fault data (rows : gmap Z Row) :
  load_rows_with no_fault data rows = load_rows data rows.
Proof.
  revert rows. induction data as [|r data IH]; intros rows; [done|].
  simpl. rewrite IH. reflexivity.
Qed.

Lemma load_rows_with_keeps fault data :
  forall (rows : gmap Z Row) k x,
    rows !! k = Some x ->
    untouched data (k, x) ->
    load_rows_with fault data rows !! k = Some x.
Proof.
  induction data as [|r data IH]; intros rows k x Hk Hu; [done|].
  simpl. inversion Hu as [|? ? Hr Hrest]; subst. apply IH; [|done].
  destruct (fault rows r); [done|].
  apply upsert_lookup_Some. right.
  unfold collides in Hr. simpl in Hr. intuition congruence.
Qed.

Lemma load_rows_with_lookup_inv fault data :
  forall (rows : gmap Z Row) k x,
    load_rows_with fault data rows !! k = Some x ->
    rows !! k = Some x \/ exists r, In r data /\ k = c_id r /\ x = row_of r.
Proof.
  induction data as [|r data IH]; intros rows k x H; [by left|].
  simpl in H. apply IH in H as [H|(r' & Hin & -> & ->)].
  - destruct (fault rows r); [by left|].
    apply upsert_lookup_Some in H as [[-> ->]|(_ & H & _)]; [right|by left].
    exists r. simpl. auto.
  - right. exists r'. simpl. auto.
Qed.

Section LoadLoop.

Variable fault : gmap Z Row -> CleanRecord -> option sqlite3_Error.

Lemma execute_insert_users d (rows : gmap Z Row) r :
  execute_insert fault (mkConn d (Users rows)) r
  = if binds r
    then match fault rows r with
         | Some e => RaisedSqlite e
         | None => Completed (mkConn d (Users (upsert r rows)))
         end
    else RaisedOther OverflowError.
Proof. reflexivity. Qed.

(** The loop on a batch whose integers all fit 64 bits. *)
Lemma load_loop_trace data :
  forall d (rows : gmap Z Row) n,
    forallb binds data = true ->
    exists out,
      load_loop fault data (mkConn d (Users rows)) n
      = (out, (mkConn d (Users (load_rows (succeeded out) rows)),
               Returned (n + length (succeeded out))%nat)) /\
      attempted out = data /\
      reported out = failed out /\
      commits out = 0%nat /\
      load_rows (succeeded out) rows = load_rows_with fault data rows.
Proof.
  induction data as [|r data IH]; intros d rows n Hb.
  - exists []. simpl. rewrite Nat.add_0_r. done.
  - simpl in Hb. apply andb_true_iff in Hb as [Hr Hb].
    simpl. rewrite execute_insert_users, Hr.
    destruct (fault rows r) as [err|] eqn:Ef.
    + destruct (IH d rows n Hb) as (out & -> & Ha & Hrep & Hc & Hw).
      exists (Sql (SInsertOrReplace r (Some err))
                :: Printed (PErrorInserting (c_id r) err) :: out).
      split; [reflexivity|split; [by rewrite <- Ha|split; [|split; [exact Hc|exact Hw]]]].
      transitivity ((c_id r, err) :: reported out); [reflexivity|].
      by rewrite Hrep.
    + destruct (IH d (upsert r rows) (S n) Hb) as (out & -> & Ha & Hrep & Hc & Hw).
      exists (Sql (SInsertOrReplace r None) :: out).
      change (succeeded (Sql (SInsertOrReplace r None) :: out))
        with (r :: succeeded out).
      rewrite load_rows_cons. simpl length.
      split; [do 3 f_equal; lia|].
      split; [by rewrite <- Ha|split; [exact Hrep|split; [exact Hc|exact Hw]]].
Qed.

(** The loop on a batch with an integer beyond 64 bits: [OverflowError]
    leaves it, and what is durable has not changed. *)
Lemma load_loop_overflow data :
  forall d (rows : gmap Z Row) n,
    forallb binds data = false ->
    exists out rows',
      load_loop fault data (mkConn d (Users rows)) n
      = (out, (mkConn d (Users rows'), Raised OverflowError)) /\
      commits out = 0%nat.
Proof.
  induction data as [|r data IH]; intros d rows n Hb; [discriminate|].
  simpl. rewrite execute_insert_users.
  simpl in Hb. destruct (binds r); simpl in Hb.
  - destruct (fault rows r) as [err|].
    + destruct (IH d rows n Hb) as (out & rows' & -> & Hc). eauto.
    + destruct (IH d (upsert r rows) (S n) Hb) as (out & rows' & -> & Hc). eauto.
  - exists [Sql (SInsertUnbound r)], rows. done.
Qed.

Lemma connect_create db :
  execute_create (connect db) = mkConn (Users (rows_of db)) (Users (rows_of db)).
Proof. by destruct db. Qed.

Lemma load_data_trace data db :
  forallb binds data = true ->
  exists out,
    load_data fault data db
    = (([Printed PLoading; Sql SConnect; Sql SCreateTableIfNotExists]
          ++ out
          ++ [Sql SCommit; Sql SClose; Printed (PLoaded (length (succeeded out)))],
        Returned tt),
       Users (load_rows (succeeded out) (rows_of db))) /\
    attempted out = data /\
    reported out = failed out /\
    commits out = 0%nat /\
    load_rows (succeeded out) (rows_of db) = load_rows_with fault data (rows_of db).
Proof.
  intros Hb. unfold load_data. rewrite connect_create.
  destruct (load_loop_trace data (Users (rows_of db)) (rows_of db) 0%nat Hb)
    as (out & -> & H).
  exists out. done.
Qed.

Lemma load_data_overflow data db :
  forallb binds data = false ->
  exists out,
    load_data fault data db
    = (([Printed PLoading; Sql SConnect; Sql SCreateTableIfNotExists] ++ out,
        Raised OverflowError),
       Users (rows_of db)) /\
    commits out = 0%nat.
Proof.
  intros Hb. unfold load_data. rewrite connect_create.
  destruct (load_loop_overflow data (Users (rows_of db)) (rows_of db) 0%nat Hb)
    as (out & rows' & -> & Hc).
  exists out. done.
Qed.

(** The file after the call: every upsert that succeeded when the loop
    ends, none of them when [OverflowError] leaves it. *)
Lemma load_data_rows data db :
  (load_data fault data db).2
  = if forallb binds data
    then Users (load_rows_with fault data (rows_of db))
    else Users (rows_of db).
Proof.
  destruct (forallb binds data) eqn:Hb.
  - destruct (load_data_trace data db Hb) as (out & -> & _ & _ & _ & Hw).
    simpl. by rewrite Hw.
  - by destruct (load_data_overflow data db Hb) as (out & -> & _).
Qed.

Lemma load_data_rows_inv data db k x :
  rows_of (load_data fault data db).2 !! k = Some x ->
  rows_of db !! k = Some x \/ exists r, In r data /\ k = c_id r /\ x = row_of r.
Proof.
  rewrite load_data_rows. destruct (forallb binds data); simpl; [|by left].
  apply load_rows_with_lookup_inv.
Qed.

End LoadLoop.

Lemma load_data_no_fault data db :
  forallb binds data = true ->
  (load_data no_fault data db).2 = Users (load_rows data (rows_of db)).
Proof.
  intros Hb. by rewrite load_data_rows, Hb, load_rows_with_no_fault.
Qed.

Example load_data_continues_after_failure :
  load_data refuse_2 c8_batch NoFile
  = (([Printed PLoading; Sql SConnect; Sql SCreateTableIfNotExists;
       Sql (SInsertOrReplace (mkClean 1 "Ann" "ann@x.org" None "Oslo" "d") None);
       Sql (SInsertOrReplace (mkClean 2 "Bob" "bob@x.org" (Some 30) "Rome" "d")
              (Some (IntegrityError "CHECK constraint failed: users")));
       Printed (PErrorInserting 2 (IntegrityError "CHECK constraint failed: users"));
       Sql (SInsertOrReplace (mkClean 3 "Cy" "cy@x.org" None "Oslo" "d") None);
       Sql SCommit; Sql SClose; Printed (PLoaded 2)],
      Returned tt),
     Users (<[3 := mkRow "Cy" "cy@x.org" None "Oslo" "d"]>
              {[1 := mkRow "Ann" "ann@x.org" None "Oslo" "d"]})).
Proof. vm_compute. reflexivity. Qed.







(** ** Extract: lemmas *)



Lemma rest_values_fresh keys :
  forall (d : RawRecord) k,
    k ∉ keys ->
    foldl (fun d key => <[Some key := VNone]> d) d keys !! Some k = d !! Some k.
Proof.
  induction keys as [|key keys IH]; intros d k Hk; [done|]. simpl.
  apply not_elem_of_cons in Hk as [Hne Hk].
  rewrite IH by done. apply lookup_insert_ne. congruence.
Qed.


Lemma extract_data_eq csv_reader open_ csv_file :
  extract_data csv_reader open_ csv_file
  = match open_ csv_file with
    | Returned text =>
        ([Printed (PExtracting csv_file);
          Printed (PExtracted (length (DictReader csv_reader text)))],
         Returned (DictReader csv_reader text))
    | Raised FileNotFoundError =>
        ([Printed (PExtracting csv_file); Printed (PFileNotFound csv_file)], Returned [])
    | Raised e => ([Printed (PExtracting csv_file)], Raised e)
    end.
Proof.
  unfold extract_data. destruct (open_ csv_file) as [text|[]]; reflexivity.
Qed.




(** ** The pipeline: lemmas *)

Section PipelineFacts.

Variable csv_reader : string -> list (list string).
Variable open_ : string -> outcome string.
Variable today : string.
Variable fault : gmap Z Row -> CleanRecord -> option sqlite3_Error.

Lemma run_etl_pipeline_eq source_file target_db :
  run_etl_pipeline csv_reader open_ today fault source_file target_db
  = match extract_data csv_reader open_ source_file with
    | (out, Raised e) => ((heading ++ out, Raised e), target_db)
    | (out, Returned []) =>
        (((heading ++ out) ++ [Printed PNoData], Returned tt), target_db)
    | (out, Returned raw_data) =>
        match transform_data today raw_data with
        | (out', Raised e) => (((heading ++ out) ++ out', Raised e), target_db)
        | (out', Returned clean_data) =>
            match (load_data fault clean_data target_db).1.2 with
            | Returned _ =>
                (((heading ++ out) ++ out'
                    ++ (load_data fault clean_data target_db).1.1 ++ closing,
                  Returned tt),
                 (load_data fault clean_data target_db).2)
            | Raised e =>
                (((heading ++ out) ++ out'
                    ++ (load_data fault clean_data target_db).1.1,
                  Raised e),
                 (load_data fault clean_data target_db).2)
            end
        end
    end.
Proof.
  unfold run_etl_pipeline, bind, print.
  destruct (extract_data csv_reader open_ source_file) as [out [[|r raw_data]|e]];
    try reflexivity.
  simpl. destruct (transform_data today (r :: raw_data)) as [out' [clean|e]];
    [|reflexivity].
  destruct (load_data fault clean target_db) as [[out'' [u|e]] db]; reflexivity.
Qed.

(** The target after a run: untouched, or what [load_data] leaves when it
    is given the cleaned batch. *)
Lemma run_etl_pipeline_target source_file target_db :
  (run_etl_pipeline csv_reader open_ today fault source_file target_db).2
  = match extract_data csv_reader open_ source_file with
    | (_, Returned (r :: raw_data)) =>
        match transform_data today (r :: raw_data) with
        | (_, Returned clean_data) => (load_data fault clean_data target_db).2
        | (_, Raised _) => target_db
        end
    | _ => target_db
    end.
Proof.
  rewrite run_etl_pipeline_eq.
  destruct (extract_data csv_reader open_ source_file) as [out [[|r raw_data]|e]];
    try reflexivity.
  destruct (transform_data today (r :: raw_data)) as [out' [clean|e]];
    [|reflexivity].
  by destruct ((load_data fault clean target_db).1.2).
Qed.

End PipelineFacts.

Lemma transform_data_emails today data out res :
  transform_data today data = (out, Returned res) ->
  Forall (fun c => email_ok (c_email c) = true) res.
Proof.
  intros H. destruct (transform_data_returned _ _ _ _ H) as [_ HF].
  apply Forall_forall. intros c Hc.
  apply list_elem_of_lookup in Hc as [i Hi].
  destruct (Forall2_lookup_r _ _ _ _ _ HF Hi) as (record & Hr & Ht).
  apply list_elem_of_lookup_2, list_elem_of_In, filter_In in Hr as [_ Hk].
  by rewrite (transform_record_email _ _ _ Ht).
Qed.

(** C3, as stated, fails: both records of the batch have a normalized
    e-mail that is non-empty and contains "@", and neither appears in an
    output, because the [id] of the second is not an integer literal and
    [transform_data] raises. *)
Lemma C3_counterexample :
  forallb kept c3_batch = true /\
  transform_data "2024-01-01" c3_batch = ([Printed PTransforming], Raised ValueError).
Proof. split; vm_compute; reflexivity. Qed.

(** C3, amended: for every input sequence on which [transform_data]
    returns, its output is, in order, the cleaned form of exactly those
    input records whose normalized e-mail is non-empty and contains "@";
    and after a run of the pipeline every row of the target table that was
    not there before has such an e-mail. *)
Theorem C3_validation :
  (forall today data out res,
     transform_data today data = (out, Returned res) ->
     Forall2 (fun r c => transform_record today r = Returned c)
             (List.filter kept data) res /\
     forall r, kept r = email_ok (Py.lower (Py.strip (text r "email")))) /\
  (forall csv_reader open_ today fault source_file target_db k x,
     rows_of (run_etl_pipeline csv_reader open_ today fault
                source_file target_db).2 !! k = Some x ->
     rows_of target_db !! k = Some x \/ email_ok (r_email x) = true).
Proof.
  split.
  - intros today data out res H. split.
    + by destruct (transform_data_returned _ _ _ _ H).
    + intros r. unfold kept, normalized_email, text.
      by destruct (get r "email") as [[s| |l]|].
  - intros csv_reader open_ today fault source_file target_db k x.
    rewrite run_etl_pipeline_target.
    destruct (extract_data csv_reader open_ source_file) as [out [[|r raw_data]|e]];
      try by left.
    destruct (transform_data today (r :: raw_data)) as [out' [clean|e]] eqn:Et;
      [|by left].
    intros H. apply load_data_rows_inv in H as [H|(c & Hin & -> & ->)]; [by left|].
    right. pose proof (transform_data_emails _ _ _ _ Et) as Hok.
    rewrite Forall_forall in Hok. apply Hok. by apply list_elem_of_In.
Qed.

Lemma C3_validation_witness :
  Forall2 (fun r c => transform_record "d" r = Returned c)
          (List.filter kept
             [raw [("id", "1"); ("email", " A@B.com ")];
              raw [("id", "2"); ("email", "not-an-email")]])
          [mkClean 1 EmptyString "a@b.com" None EmptyString "d"] /\
  (rows_of NoFile !! 1 = Some (mkRow "Alice" "a@b.com" (Some 25) "Ny" "2024-01-01")
   \/ email_ok (r_email (mkRow "Alice" "a@b.com" (Some 25) "Ny" "2024-01-01")) = true).
Proof.
  split.
  - exact (proj1 (proj1 C3_validation "d"
             [raw [("id", "1"); ("email", " A@B.com ")];
              raw [("id", "2"); ("email", "not-an-email")]] _ _ eq_refl)).
  - exact (proj2 C3_validation plain_reader (one_file "in.csv" sample_csv)
             "2024-01-01" no_fault "in.csv" NoFile 1 _ eq_refl).
Defined.

(** C4: a second run of the pipeline on the same source and on the target
    the first run left, with the same date, leaves the target as the first
    run left it. *)
Theorem C4_pipeline_idempotent csv_reader open_ today source_file target_db :
  (run_etl_pipeline csv_reader open_ today no_fault source_file
     (run_etl_pipeline csv_reader open_ today no_fault source_file target_db).2).2
  = (run_etl_pipeline csv_reader open_ today no_fault source_file target_db).2.
Proof.
  rewrite !run_etl_pipeline_target.
  destruct (extract_data csv_reader open_ source_file) as [out [[|r raw_data]|e]];
    try reflexivity.
  destruct (transform_data today (r :: raw_data)) as [out' [clean|e]];
    [|reflexivity].
  rewrite !load_data_rows. destruct (forallb binds clean); simpl; [|done].
  by rewrite !load_rows_with_no_fault, load_rows_idempotent.
Qed.

(** C6: when opening the source raises [FileNotFoundError], the run prints
    the notice and stops; the trace has no statement on the database and
    the target is what it was. *)
Theorem C6_missing_source csv_reader open_ today fault source_file target_db :
  open_ source_file = Raised FileNotFoundError ->
  run_etl_pipeline csv_reader open_ today fault source_file target_db
  = ((heading ++ [Printed (PExtracting source_file);
                  Printed (PFileNotFound source_file); Printed PNoData],
      Returned tt),
     target_db).
Proof.
  intros H. rewrite run_etl_pipeline_eq, extract_data_eq, H. reflexivity.
Qed.

Lemma C6_missing_source_witness :
  run_etl_pipeline plain_reader (one_file "in.csv" sample_csv) "2024-01-01"
    no_fault "missing.csv" NoFile
  = ((heading ++ [Printed (PExtracting "missing.csv");
                  Printed (PFileNotFound "missing.csv"); Printed PNoData],
      Returned tt),
     NoFile).
Proof.
  apply (C6_missing_source plain_reader (one_file "in.csv" sample_csv)
           "2024-01-01" no_fault "missing.csv" NoFile).
  reflexivity.
Defined.

(** C10: when the source opens and yields at least one record, and every
    record is transformed and then fails the e-mail check, the run still
    calls [load_data] on the empty batch: the table is created if it was
    missing, nothing is inserted, the commit follows and 0 is the count
    printed. *)
Theorem C10_all_dropped csv_reader open_ today fault source_file target_db text :
  open_ source_file = Returned text ->
  DictReader csv_reader text <> [] ->
  Forall (fun r => exists c, transform_record today r = Returned c /\
                             email_ok (c_email c) = false)
         (DictReader csv_reader text) ->
  run_etl_pipeline csv_reader open_ today fault source_file target_db
  = ((heading
        ++ [Printed (PExtracting source_file);
            Printed (PExtracted (length (DictReader csv_reader text)))]
        ++ [Printed PTransforming]
        ++ map skipping (DictReader csv_reader text)
        ++ [Printed (PTransformed 0)]
        ++ [Printed PLoading; Sql SConnect; Sql SCreateTableIfNotExists;
            Sql SCommit; Sql SClose; Printed (PLoaded 0)]
        ++ closing,
      Returned tt),
     Users (rows_of target_db)).
Proof.
  intros Hopen Hne Hall.
  rewrite run_etl_pipeline_eq, extract_data_eq, Hopen.
  set (data := DictReader csv_reader text) in *.
  assert (Forall (fun r => exists c, transform_record today r = Returned c) data) as Ht.
  { eapply Forall_impl; [exact Hall|]. intros r (c & Hc & _). eauto. }
  assert (forall r, In r data -> kept r = false) as Hk.
  { intros r Hr. apply list_elem_of_In in Hr. rewrite Forall_forall in Hall.
    destruct (Hall r Hr) as (c & Hc & Hbad).
    unfold kept. by rewrite <- (transform_record_email _ _ _ Hc). }
  assert (List.filter kept data = []) as Hnone.
  { clear -Hk. induction data as [|r data IH]; [done|]. simpl.
    rewrite (Hk r) by (by left). apply IH. intros r' Hr'. apply Hk. by right. }
  assert (List.filter (fun r => negb (kept r)) data = data) as Hevery.
  { clear -Hk. induction data as [|r data IH]; [done|]. simpl.
    rewrite (Hk r) by (by left). simpl. f_equal. apply IH.
    intros r' Hr'. apply Hk. by right. }
  destruct (transform_loop_returns today data [] Ht) as (res & E & HF).
  rewrite Hnone in HF. inversion HF; subst. rewrite Hevery in E.
  rewrite transform_data_eq, E.
  destruct data as [|r data]; [done|].
  unfold load_data. rewrite connect_create. unfold heading, closing. simpl.
  rewrite <- ?app_assoc. reflexivity.
Qed.

Lemma C10_all_dropped_witness :
  run_etl_pipeline plain_reader (one_file "in.csv" rejected_csv) "d" no_fault
    "in.csv" NoFile
  = ((heading
        ++ [Printed (PExtracting "in.csv");
            Printed (PExtracted (length (DictReader plain_reader rejected_csv)))]
        ++ [Printed PTransforming]
        ++ map skipping (DictReader plain_reader rejected_csv)
        ++ [Printed (PTransformed 0)]
        ++ [Printed PLoading; Sql SConnect; Sql SCreateTableIfNotExists;
            Sql SCommit; Sql SClose; Printed (PLoaded 0)]
        ++ closing,
      Returned tt),
     Users (rows_of NoFile)).
Proof.
  apply (C10_all_dropped plain_reader (one_file "in.csv" rejected_csv) "d"
           no_fault "in.csv" NoFile rejected_csv).
  - reflexivity.
  - vm_compute. discriminate.
  - repeat constructor. eexists. split; vm_compute; reflexivity.
Defined.

(** * Further properties *)

(** ** Text: lemmas *)

Lemma isspace_tolower c : Py.isspace (Py.tolower c) = Py.isspace c.
Proof. destruct c as [[] [] [] [] [] [] [] []]; reflexivity. Qed.

Lemma isspace_toupper c : Py.isspace (Py.toupper c) = Py.isspace c.
Proof. destruct c as [[] [] [] [] [] [] [] []]; reflexivity. Qed.

Lemma isspace_not_cased c : Py.isspace c = true -> Py.iscased c = false.
Proof. destruct c as [[] [] [] [] [] [] [] []]; vm_compute; congruence. Qed.

Lemma tolower_tolower c : Py.tolower (Py.tolower c) = Py.tolower c.
Proof. destruct c as [[] [] [] [] [] [] [] []]; reflexivity. Qed.

Lemma toupper_toupper c : Py.toupper (Py.toupper c) = Py.toupper c.
Proof. destruct c as [[] [] [] [] [] [] [] []]; reflexivity. Qed.

Lemma iscased_tolower c : Py.iscased (Py.tolower c) = Py.iscased c.
Proof. destruct c as [[] [] [] [] [] [] [] []]; reflexivity. Qed.

Lemma iscased_toupper c : Py.iscased (Py.toupper c) = Py.iscased c.
Proof. destruct c as [[] [] [] [] [] [] [] []]; reflexivity. Qed.

Lemma rstrip_by_cons sp c s :
  sp c = false ->
  Py.rstrip_by sp (String c s) = String c (Py.rstrip_by sp s).
Proof. intros H. simpl. rewrite H. by destruct (Py.rstrip_by sp s). Qed.

Lemma rstrip_by_idem sp s : Py.rstrip_by sp (Py.rstrip_by sp s) = Py.rstrip_by sp s.
Proof.
  induction s as [|c s IH]; [done|]. simpl.
  destruct (Py.rstrip_by sp s) as [|d r] eqn:E.
  - destruct (sp c) eqn:Ec; [done|]. simpl. by rewrite Ec.
  - simpl. simpl in IH. rewrite IH. reflexivity.
Qed.

Lemma lstrip_by_head sp s :
  Py.lstrip_by sp s = EmptyString \/
  exists c s', Py.lstrip_by sp s = String c s' /\ sp c = false.
Proof.
  induction s as [|c s IH]; [by left|]. simpl.
  destruct (sp c) eqn:Ec; [done|]. right. eauto.
Qed.

Lemma strip_idem s : Py.strip (Py.strip s) = Py.strip s.
Proof.
  unfold Py.strip.
  destruct (lstrip_by_head Py.isspace s) as [->|(c & s' & -> & Hc)]; [done|].
  rewrite rstrip_by_cons by done. simpl Py.lstrip_by. rewrite Hc.
  rewrite rstrip_by_cons by done. by rewrite rstrip_by_idem.
Qed.

Lemma lower_idem s : Py.lower (Py.lower s) = Py.lower s.
Proof. induction s as [|c s IH]; [done|]. simpl. by rewrite tolower_tolower, IH. Qed.

Lemma title_from_idem s :
  forall b, Py.title_from b (Py.title_from b s) = Py.title_from b s.
Proof.
  induction s as [|c s IH]; intros b; [done|]. simpl.
  destruct b.
  - by rewrite tolower_tolower, iscased_tolower, IH.
  - by rewrite toupper_toupper, iscased_toupper, IH.
Qed.

Lemma lstrip_lower s :
  Py.lstrip_by Py.isspace (Py.lower s) = Py.lower (Py.lstrip_by Py.isspace s).
Proof.
  induction s as [|c s IH]; [done|]. simpl. rewrite isspace_tolower.
  by destruct (Py.isspace c).
Qed.

Lemma rstrip_lower s :
  Py.rstrip_by Py.isspace (Py.lower s) = Py.lower (Py.rstrip_by Py.isspace s).
Proof.
  induction s as [|c s IH]; [done|]. simpl. rewrite IH, isspace_tolower.
  destruct (Py.rstrip_by Py.isspace s); simpl; [|done].
  by destruct (Py.isspace c).
Qed.

Lemma strip_lower s : Py.strip (Py.lower s) = Py.lower (Py.strip s).
Proof. unfold Py.strip. by rewrite lstrip_lower, rstrip_lower. Qed.

Lemma lstrip_title s :
  Py.lstrip_by Py.isspace (Py.title s) = Py.title (Py.lstrip_by Py.isspace s).
Proof.
  unfold Py.title. induction s as [|c s IH]; [done|]. simpl.
  rewrite isspace_toupper. destruct (Py.isspace c) eqn:Ec; [|done].
  by rewrite (isspace_not_cased c Ec).
Qed.

Lemma rstrip_title_from s :
  forall b,
    Py.rstrip_by Py.isspace (Py.title_from b s)
    = Py.title_from b (Py.rstrip_by Py.isspace s).
Proof.
  induction s as [|c s IH]; intros b; [done|]. simpl. rewrite IH.
  assert (Py.isspace (if b then Py.tolower c else Py.toupper c) = Py.isspace c)
    as -> by (destruct b; [apply isspace_tolower|apply isspace_toupper]).
  destruct (Py.rstrip_by Py.isspace s); simpl; [|done].
  by destruct (Py.isspace c).
Qed.

Lemma strip_title s : Py.strip (Py.title s) = Py.title (Py.strip s).
Proof. unfold Py.strip. rewrite lstrip_title. apply rstrip_title_from. Qed.

Lemma lower_strip_fixed s :
  Py.lower (Py.strip (Py.lower (Py.strip s))) = Py.lower (Py.strip s).
Proof. by rewrite strip_lower, strip_idem, lower_idem. Qed.

Lemma title_strip_fixed s :
  Py.title (Py.strip (Py.title (Py.strip s))) = Py.title (Py.strip s).
Proof. rewrite strip_title, strip_idem. apply title_from_idem. Qed.

(** ** Transform: further lemmas *)

Lemma transform_returned_unique today l :
  forall res res',
    Forall2 (fun r c => transform_record today r = Returned c) l res ->
    Forall2 (fun r c => transform_record today r = Returned c) l res' ->
    res = res'.
Proof.
  induction l as [|r l IH]; intros res res' H H'.
  - inversion H; inversion H'; by subst.
  - inversion H as [|? c ? t Hc Ht]; inversion H' as [|? c' ? t' Hc' Ht']; subst.
    rewrite Hc in Hc'. inversion Hc'; subst. f_equal. by apply IH.
Qed.

Lemma filter_split_length {A} (f : A -> bool) (l : list A) :
  (length (List.filter f l) + length (List.filter (fun a => negb (f a)) l))%nat
  = length l.
Proof.
  induction l as [|a l IH]; [done|]. simpl. destruct (f a); simpl; lia.
Qed.

Lemma skipped_skipping l : skipped (map skipping l) = l.
Proof.
  induction l as [|r l IH]; [done|].
  change (r :: skipped (map skipping l) = r :: l). by rewrite IH.
Qed.

Lemma skipped_app out out' : skipped (out ++ out') = skipped out ++ skipped out'.
Proof. apply omap_app. Qed.

Lemma statements_app out out' :
  statements (out ++ out') = statements out ++ statements out'.
Proof. apply omap_app. Qed.

Lemma statements_skipping l : statements (map skipping l) = [].
Proof. induction l as [|r l IH]; [done|]. exact IH. Qed.

(** The loop over a prefix whose records are all transformed, followed by
    the loop over the rest. *)
Lemma transform_loop_app today before :
  forall rest transformed,
    Forall (fun r => exists c, transform_record today r = Returned c) before ->
    exists res,
      Forall2 (fun r c => transform_record today r = Returned c)
              (List.filter kept before) res /\
      transform_loop today (before ++ rest) transformed
      = (map skipping (List.filter (fun r => negb (kept r)) before)
           ++ (transform_loop today rest (transformed ++ res)).1,
         (transform_loop today rest (transformed ++ res)).2).
Proof.
  induction before as [|record before IH]; intros rest transformed Hall.
  - exists []. rewrite app_nil_r. split; [constructor|].
    simpl. by destruct (transform_loop today rest transformed).
  - inversion Hall as [|? ? [c Hc] Hrest]; subst.
    simpl transform_loop. rewrite Hc. unfold lift, bind.
    simpl List.filter.
    assert (kept record = email_ok (c_email c)) as ->
      by (unfold kept; by rewrite (transform_record_email _ _ _ Hc)).
    destruct (email_ok (c_email c)) eqn:Eok; simpl negb; cbv iota.
    + destruct (IH rest (transformed ++ [c]) Hrest) as (res & HF & ->).
      exists (c :: res). split; [by constructor|].
      rewrite <- app_assoc. reflexivity.
    + destruct (IH rest transformed Hrest) as (res & HF & ->).
      exists res. split; [done|]. reflexivity.
Qed.

Lemma transform_loop_statements today data :
  forall transformed, statements (transform_loop today data transformed).1 = [].
Proof.
  induction data as [|record data IH]; intros transformed; [done|].
  simpl. destruct (transform_record today record) as [c|e]; [|done].
  unfold lift, bind. destruct (email_ok (c_email c)).
  - specialize (IH (transformed ++ [c])).
    by destruct (transform_loop today data (transformed ++ [c])).
  - specialize (IH transformed). unfold print.
    by destruct (transform_loop today data transformed).
Qed.

Lemma transform_data_statements today data :
  statements (transform_data today data).1 = [].
Proof.
  rewrite transform_data_eq.
  pose proof (transform_loop_statements today data []) as H.
  destruct (transform_loop today data []) as [out [res|e]]; simpl in *.
  - unfold statements in *. simpl. rewrite omap_app, H. reflexivity.
  - exact H.
Qed.

(** X1: in a transformed record the age is absent when the raw [age] is
    absent or empty, and is otherwise the integer parse of the raw text:
    an age of "0" is kept as 0, not turned into an absent age. *)
Theorem X1_age_field today record c :
  transform_record today record = Returned c ->
  c_age c = if Py.nonempty (text record "age")
            then Py.int_of_str (text record "age")
            else None.
Proof.
  intros H. destruct (transform_record_inv _ _ _ H)
    as (i & n & e & a & ci & _ & _ & _ & _ & Ha & _).
  unfold truthy_get, int_get, text in *.
  destruct (get record "age") as [[s| |[|x l]]|]; simpl in *; try done.
  - destruct (Py.nonempty s); [|done]. destruct Ha as [Ha ->].
    destruct (Py.int_of_str s); by inversion Ha.
  - by destruct Ha.
Qed.

Lemma X1_age_field_witness :
  c_age (mkClean 7 EmptyString "a@b" (Some 0) EmptyString "d")
  = if Py.nonempty (text (raw [("id", "7"); ("email", "a@b"); ("age", "0")]) "age")
    then Py.int_of_str (text (raw [("id", "7"); ("email", "a@b"); ("age", "0")]) "age")
    else None.
Proof.
  apply (X1_age_field "d" (raw [("id", "7"); ("email", "a@b"); ("age", "0")])).
  reflexivity.
Defined.

(** X2: on ASCII input, every record that [transform_data] returns is in
    normal form: its e-mail is non-empty, contains "@" and is unchanged by
    stripping and lower-casing again, and its name and city are unchanged
    by stripping and title-casing again. *)
Theorem X2_output_normal_form today data out res :
  Forall (fun r => isascii (text r "name") = true /\
                   isascii (text r "email") = true /\
                   isascii (text r "city") = true) data ->
  transform_data today data = (out, Returned res) ->
  Forall (fun c =>
            email_ok (c_email c) = true /\
            Py.lower (Py.strip (c_email c)) = c_email c /\
            Py.title (Py.strip (c_name c)) = c_name c /\
            Py.title (Py.strip (c_city c)) = c_city c) res.
Proof.
  intros _ H. pose proof (transform_data_emails _ _ _ _ H) as Hok.
  destruct (transform_data_returned _ _ _ _ H) as [_ HF].
  apply Forall_forall. intros c Hc.
  split; [rewrite Forall_forall in Hok; by apply Hok|].
  apply list_elem_of_lookup in Hc as [i Hi].
  destruct (Forall2_lookup_r _ _ _ _ _ HF Hi) as (record & _ & Ht).
  destruct (transform_record_inv _ _ _ Ht)
    as (i0 & n & e & a & ci & _ & _ & _ & _ & _ & ->). simpl.
  by rewrite lower_strip_fixed, !title_strip_fixed.
Qed.

Lemma X2_output_normal_form_witness :
  Forall (fun c =>
            email_ok (c_email c) = true /\
            Py.lower (Py.strip (c_email c)) = c_email c /\
            Py.title (Py.strip (c_name c)) = c_name c /\
            Py.title (Py.strip (c_city c)) = c_city c)
         [mkClean 1 "Mary Ann" "m@x.org" None "New York" "d"].
Proof.
  eapply (X2_output_normal_form "d"
            [raw [("id", "1"); ("name", " mary ANN"); ("email", " M@x.ORG ");
                  ("city", "new york ")]]).
  - repeat constructor.
  - reflexivity.
Defined.

(** X3: when [transform_data] returns, every input record is either
    returned or reported as skipped, never both and never neither: the
    records reported are exactly those whose normalized e-mail fails the
    check, in order, the two counts add up to the size of the input, and
    the count printed last is the number of records returned. *)
Theorem X3_nothing_lost today data out res :
  transform_data today data = (out, Returned res) ->
  skipped out = List.filter (fun r => negb (kept r)) data /\
  (length res + length (skipped out))%nat = length data /\
  last out = Some (Printed (PTransformed (length res))).
Proof.
  intros H. destruct (transform_data_returned _ _ _ _ H) as [-> HF].
  assert (skipped (Printed PTransforming
                     :: map skipping (List.filter (fun r => negb (kept r)) data)
                     ++ [Printed (PTransformed (length res))])
          = List.filter (fun r => negb (kept r)) data) as Hs.
  { change (skipped (map skipping (List.filter (fun r => negb (kept r)) data)
                       ++ [Printed (PTransformed (length res))])
            = List.filter (fun r => negb (kept r)) data).
    rewrite skipped_app, skipped_skipping. apply app_nil_r. }
  split; [exact Hs|]. split.
  - rewrite Hs, <- (Forall2_length _ _ _ HF). apply filter_split_length.
  - rewrite app_comm_cons. apply last_snoc.
Qed.

Lemma X3_nothing_lost_witness :
  skipped (transform_data "d" [raw [("email", "a@b")]; raw [("email", "ab")]]).1
  = List.filter (fun r => negb (kept r)) [raw [("email", "a@b")]; raw [("email", "ab")]] /\
  (length [mkClean 0 EmptyString "a@b" None EmptyString "d"]
   + length (skipped (transform_data "d"
                        [raw [("email", "a@b")]; raw [("email", "ab")]]).1))%nat
  = length [raw [("email", "a@b")]; raw [("email", "ab")]] /\
  last (transform_data "d" [raw [("email", "a@b")]; raw [("email", "ab")]]).1
  = Some (Printed (PTransformed
                     (length [mkClean 0 EmptyString "a@b" None EmptyString "d"]))).
Proof.
  apply (X3_nothing_lost "d" [raw [("email", "a@b")]; raw [("email", "ab")]]).
  reflexivity.
Defined.

(** X4: the first record that cannot be transformed aborts the batch:
    when the records before it are all transformed, [transform_data]
    raises that record's exception after reporting the invalid records
    among those before it; the records after it are not examined and the
    records already cleaned are not returned. *)
Theorem X4_first_failure_aborts today before record after e :
  Forall (fun r => exists c, transform_record today r = Returned c) before ->
  transform_record today record = Raised e ->
  transform_data today (before ++ record :: after)
  = (Printed PTransforming
       :: map skipping (List.filter (fun r => negb (kept r)) before),
     Raised e).
Proof.
  intros Hb He. rewrite transform_data_eq.
  destruct (transform_loop_app today before (record :: after) [] Hb)
    as (res & _ & ->).
  simpl transform_loop. rewrite He. simpl. by rewrite app_nil_r.
Qed.

Lemma X4_first_failure_aborts_witness :
  transform_data "d"
    ([raw [("id", "1"); ("email", "a@b")]; raw [("id", "2"); ("email", "ab")]]
       ++ raw [("id", "x"); ("email", "c@d")] :: [raw [("id", "4"); ("email", "e@f")]])
  = (Printed PTransforming
       :: map skipping
            (List.filter (fun r => negb (kept r))
               [raw [("id", "1"); ("email", "a@b")]; raw [("id", "2"); ("email", "ab")]]),
     Raised ValueError).
Proof.
  apply X4_first_failure_aborts.
  - repeat constructor; eexists; vm_compute; reflexivity.
  - vm_compute. reflexivity.
Defined.

(** X5: transforming in chunks is transforming at once: when
    [transform_data] returns on two batches, it returns on their
    concatenation, with the concatenation of the two outputs and of the
    two lists of skipped records. *)
Theorem X5_transform_concatenation today data1 data2 out1 out2 res1 res2 :
  transform_data today data1 = (out1, Returned res1) ->
  transform_data today data2 = (out2, Returned res2) ->
  exists out,
    transform_data today (data1 ++ data2) = (out, Returned (res1 ++ res2)) /\
    skipped out = skipped out1 ++ skipped out2.
Proof.
  intros H1 H2.
  rewrite transform_data_eq in H1, H2.
  destruct (transform_loop today data1 []) as [o1 [r1|]] eqn:E1; [|discriminate].
  destruct (transform_loop today data2 []) as [o2 [r2|]] eqn:E2; [|discriminate].
  inversion H1; inversion H2; subst; clear H1 H2.
  pose proof (transform_loop_returned_inv _ _ _ _ _ E1) as Ha1.
  pose proof (transform_loop_returned_inv _ _ _ _ _ E2) as Ha2.
  destruct (transform_loop_returns today data1 [] Ha1) as (r1' & E1' & HF1).
  rewrite E1 in E1'. inversion E1'; subst; clear E1'.
  destruct (transform_loop_returns today data2 [] Ha2) as (r2' & E2' & HF2).
  rewrite E2 in E2'. inversion E2'; subst; clear E2'.
  destruct (transform_loop_app today data1 data2 [] Ha1) as (r1'' & HF1' & Eapp).
  rewrite (transform_returned_unique _ _ _ _ HF1' HF1) in Eapp.
  destruct (transform_loop_returns today data2 ([] ++ r1') Ha2) as (r2'' & E2'' & HF2').
  rewrite (transform_returned_unique _ _ _ _ HF2' HF2) in E2''.
  rewrite E2'' in Eapp. simpl in Eapp.
  rewrite transform_data_eq, Eapp. eexists. split; [reflexivity|].
  change (skipped ((map skipping (List.filter (fun r => negb (kept r)) data1)
                      ++ map skipping (List.filter (fun r => negb (kept r)) data2))
                     ++ [Printed (PTransformed (length (r1' ++ r2')))])
          = skipped (map skipping (List.filter (fun r => negb (kept r)) data1)
                       ++ [Printed (PTransformed (length ([] ++ r1')))])
            ++ skipped (map skipping (List.filter (fun r => negb (kept r)) data2)
                          ++ [Printed (PTransformed (length ([] ++ r2')))])).
  rewrite !skipped_app, !skipped_skipping. simpl. by rewrite !app_nil_r.
Qed.

Lemma X5_transform_concatenation_witness :
  exists out,
    transform_data "d" ([raw [("email", "a@b")]] ++ [raw [("email", "ab")]])
    = (out, Returned ([mkClean 0 EmptyString "a@b" None EmptyString "d"] ++ [])) /\
    skipped out
    = skipped (transform_data "d" [raw [("email", "a@b")]]).1
      ++ skipped (transform_data "d" [raw [("email", "ab")]]).1.
Proof.
  apply (X5_transform_concatenation "d" [raw [("email", "a@b")]]
           [raw [("email", "ab")]]); reflexivity.
Defined.

(** ** Extract: further lemmas *)

Lemma dict_zip_is_Some fieldnames :
  forall row (d : RawRecord) k,
    is_Some (foldl (fun d kv => <[Some kv.1 := VStr kv.2]> d) d
                   (zip fieldnames row) !! Some k)
    <-> is_Some (d !! Some k) \/ k ∈ take (length row) fieldnames.
Proof.
  induction fieldnames as [|f fieldnames IH]; intros row d k.
  - simpl. rewrite take_nil, elem_of_nil. tauto.
  - destruct row as [|c row]; [simpl; rewrite elem_of_nil; tauto|]. simpl.
    rewrite IH, lookup_insert_is_Some, elem_of_cons.
    destruct (decide (f = k)) as [->|Hne]; [tauto|].
    split; intros [H|H]; try tauto.
    + destruct H as [H|[_ H]]; [congruence|tauto].
    + left. right. split; [congruence|done].
    + destruct H as [H|H]; [congruence|tauto].
Qed.

Lemma rest_values_is_Some keys :
  forall (d : RawRecord) k,
    is_Some (foldl (fun d key => <[Some key := VNone]> d) d keys !! Some k)
    <-> is_Some (d !! Some k) \/ k ∈ keys.
Proof.
  induction keys as [|key keys IH]; intros d k; [simpl; rewrite elem_of_nil; tauto|].
  simpl.
  rewrite IH, lookup_insert_is_Some, elem_of_cons.
  destruct (decide (key = k)) as [->|Hne]; [tauto|].
  split; intros [H|H]; try tauto.
  + destruct H as [H|[_ H]]; [congruence|tauto].
  + left. right. split; [congruence|done].
  + destruct H as [H|H]; [congruence|tauto].
Qed.

Lemma rest_values_lookup keys :
  forall (d : RawRecord) k,
    k ∈ keys ->
    foldl (fun d key => <[Some key := VNone]> d) d keys !! Some k = Some VNone.
Proof.
  induction keys as [|key keys IH]; intros d k Hk; [by apply elem_of_nil in Hk|].
  simpl. destruct (decide (k ∈ keys)) as [Hin|Hnin]; [by apply IH|].
  apply elem_of_cons in Hk as [->|Hk]; [|done].
  rewrite rest_values_fresh by done. apply lookup_insert_eq.
Qed.

Lemma row_dict_is_Some fieldnames row k :
  is_Some (get (row_dict fieldnames row) k) <-> k ∈ fieldnames.
Proof.
  unfold get, row_dict, dict_zip.
  destruct (length fieldnames <? length row)%nat eqn:E1.
  - apply Nat.ltb_lt in E1. rewrite lookup_insert_ne by done.
    rewrite dict_zip_is_Some, lookup_empty, take_ge by lia.
    split; [intros [[? H]|H]; [discriminate|done]|auto].
  - apply Nat.ltb_ge in E1.
    destruct (length row <? length fieldnames)%nat eqn:E2.
    + rewrite rest_values_is_Some, dict_zip_is_Some, lookup_empty.
      rewrite <- (take_drop (length row) fieldnames) at 3.
      rewrite elem_of_app.
      split; [intros [[[? H]|H]|H]; [discriminate|auto|auto]|tauto].
    + apply Nat.ltb_ge in E2.
      rewrite dict_zip_is_Some, lookup_empty, take_ge by lia.
      split; [intros [[? H]|H]; [discriminate|done]|auto].
Qed.

Lemma row_dict_short fieldnames row k :
  k ∈ drop (length row) fieldnames ->
  get (row_dict fieldnames row) k = Some VNone.
Proof.
  intros Hk. unfold get, row_dict.
  assert (length row < length fieldnames)%nat as Hlt.
  { destruct (decide (length row < length fieldnames)%nat) as [|Hge]; [done|].
    rewrite drop_ge in Hk by lia. by apply elem_of_nil in Hk. }
  assert ((length fieldnames <? length row)%nat = false) as -> by (apply Nat.ltb_ge; lia).
  assert ((length row <? length fieldnames)%nat = true) as -> by (by apply Nat.ltb_lt).
  by apply rest_values_lookup.
Qed.

Lemma zip_take_r (fieldnames : list string) :
  forall row : list string,
    zip fieldnames (take (length fieldnames) row) = zip fieldnames row.
Proof.
  induction fieldnames as [|f fieldnames IH]; intros row; [done|].
  destruct row as [|c row]; [done|]. simpl. by rewrite IH.
Qed.

Lemma transform_record_rest_key (today : string) (record : RawRecord) (v : value) :
  transform_record today (<[None := v]> record) = transform_record today record.
Proof.
  unfold transform_record, int_get, str_get, truthy_get, get.
  by rewrite !lookup_insert_ne by done.
Qed.

Lemma transform_record_raises_only today record e :
  transform_record today record = Raised e ->
  e = ValueError \/ e = TypeError \/ e = AttributeError.
Proof.
  unfold transform_record, int_get, str_get, truthy_get. intros H.
  repeat match type of H with
         | context [match get record ?k with _ => _ end] =>
             destruct (get record k) as [[?| |[|? ?]]|]; simpl in H
         | context [match Py.int_of_str ?s with _ => _ end] =>
             destruct (Py.int_of_str s); simpl in H
         | context [if Py.nonempty ?s then _ else _] =>
             destruct (Py.nonempty s); simpl in H
         end;
    inversion H; auto.
Qed.

(** X6: for every dictionary that [extract_data] returns, a field is
    present exactly when the header names it: the defaults of
    [record.get] in [transform_data] apply only to columns that the header
    lacks. *)
Theorem X6_fields_follow_header csv_reader open_ csv_file text fieldnames rows
    out data record k :
  open_ csv_file = Returned text ->
  csv_reader text = fieldnames :: rows ->
  extract_data csv_reader open_ csv_file = (out, Returned data) ->
  In record data ->
  (is_Some (get record k) <-> k ∈ fieldnames).
Proof.
  intros Hopen Hrows H Hin. rewrite extract_data_eq, Hopen in H.
  inversion H; subst; clear H. unfold DictReader in Hin. rewrite Hrows in Hin.
  apply in_map_iff in Hin as (row & <- & _). apply row_dict_is_Some.
Qed.

Lemma X6_fields_follow_header_witness :
  is_Some (get (row_dict ["id"; "name"; "email"; "age"; "city"]%string
                         ["2"; "bob"; "not-an-email"; EmptyString; "sf"]%string) "age")
  <-> "age"%string ∈ ["id"; "name"; "email"; "age"; "city"]%string.
Proof.
  apply (X6_fields_follow_header plain_reader (one_file "in.csv" sample_csv)
           "in.csv" sample_csv _ _ _ _ _ "age"%string eq_refl eq_refl eq_refl).
  simpl. right. left. reflexivity.
Defined.

(** X7: a row with fewer cells than the header gets Python's [None] for
    the columns it lacks, and when one of them is [id], [name], [email] or
    [city] the transformation of that row raises ([ValueError],
    [TypeError] or [AttributeError]) instead of using a default. *)
Theorem X7_short_row_raises today fieldnames row k :
  k ∈ drop (length row) fieldnames ->
  k ∈ ["id"; "name"; "email"; "city"]%string ->
  get (row_dict fieldnames row) k = Some VNone /\
  exists e,
    transform_record today (row_dict fieldnames row) = Raised e /\
    (e = ValueError \/ e = TypeError \/ e = AttributeError).
Proof.
  intros Hk Hfield. pose proof (row_dict_short _ _ _ Hk) as Hnone.
  split; [done|].
  destruct (transform_record today (row_dict fieldnames row)) as [c|e] eqn:H.
  - exfalso. destruct (transform_record_inv _ _ _ H)
      as (i & n & em & a & ci & Hi & Hn & He & Hci & _).
    unfold int_get, str_get in *.
    repeat (apply elem_of_cons in Hfield as [->|Hfield];
            [rewrite Hnone in *; discriminate|]).
    by apply elem_of_nil in Hfield.
  - exists e. split; [done|]. by eapply transform_record_raises_only.
Qed.

Lemma X7_short_row_raises_witness :
  get (row_dict ["id"; "email"; "name"]%string ["1"; "a@b"]%string) "name"
  = Some VNone /\
  exists e,
    transform_record "d" (row_dict ["id"; "email"; "name"]%string ["1"; "a@b"]%string)
    = Raised e /\
    (e = ValueError \/ e = TypeError \/ e = AttributeError).
Proof.
  apply X7_short_row_raises.
  - simpl. rewrite !elem_of_cons. auto.
  - rewrite !elem_of_cons. auto.
Defined.

(** X8: the cells of a row beyond the header are filed under the rest
    key and do not change how the row is transformed. *)
Theorem X8_surplus_cells_ignored today fieldnames row :
  (length fieldnames < length row)%nat ->
  row_dict fieldnames row !! None = Some (VList (drop (length fieldnames) row)) /\
  transform_record today (row_dict fieldnames row)
  = transform_record today (row_dict fieldnames (take (length fieldnames) row)).
Proof.
  intros Hlt. unfold row_dict.
  rewrite length_take, Nat.min_l by lia. rewrite Nat.ltb_irrefl.
  assert ((length fieldnames <? length row)%nat = true) as -> by (by apply Nat.ltb_lt).
  split; [apply lookup_insert_eq|].
  rewrite transform_record_rest_key. unfold dict_zip. by rewrite zip_take_r.
Qed.

Lemma X8_surplus_cells_ignored_witness :
  row_dict ["id"; "email"]%string ["1"; "a@b"; "x"; "y"]%string !! None
  = Some (VList (drop (length ["id"; "email"]%string) ["1"; "a@b"; "x"; "y"]%string)) /\
  transform_record "d" (row_dict ["id"; "email"]%string ["1"; "a@b"; "x"; "y"]%string)
  = transform_record "d"
      (row_dict ["id"; "email"]%string
         (take (length ["id"; "email"]%string) ["1"; "a@b"; "x"; "y"]%string)).
Proof. apply X8_surplus_cells_ignored. simpl. lia. Defined.

(** ** Load: further lemmas *)

Lemma upsert_unique_emails r (rows : gmap Z Row) :
  unique_emails rows -> unique_emails (upsert r rows).
Proof.
  intros Hu k1 k2 x1 x2 H1 H2 He.
  apply upsert_lookup_Some in H1 as [[-> ->]|(Hk1 & H1 & He1)];
    apply upsert_lookup_Some in H2 as [[-> ->]|(Hk2 & H2 & He2)].
  - reflexivity.
  - simpl in He. congruence.
  - simpl in He. congruence.
  - eapply Hu; eauto.
Qed.

Lemma load_rows_with_unique_emails fault data :
  forall rows : gmap Z Row,
    unique_emails rows -> unique_emails (load_rows_with fault data rows).
Proof.
  induction data as [|r data IH]; intros rows Hu; [done|]. simpl.
  apply IH. destruct (fault rows r); [done|]. by apply upsert_unique_emails.
Qed.

(** Which rows the table holds after the upserts of a batch. *)
Lemma load_rows_lookup_iff data :
  forall (rows : gmap Z Row) k x,
    load_rows data rows !! k = Some x <->
    (rows !! k = Some x /\ untouched data (k, x)) \/
    (exists before r after,
        data = before ++ r :: after /\ k = c_id r /\ x = row_of r /\
        untouched after (c_id r, row_of r)).
Proof.
  induction data as [|r0 data IH]; intros rows k x.
  - simpl. split.
    + intros H. left. split; [done|constructor].
    + intros [[H _]|(before & r & after & H & _)]; [done|].
      by destruct before.
  - rewrite load_rows_cons, IH. split.
    + intros [[H Hu]|(before & r & after & -> & -> & -> & Hu)].
      * apply upsert_lookup_Some in H as [[-> ->]|(Hk & H & He)].
        -- right. by exists [], r0, data.
        -- left. split; [done|]. constructor; [|done].
           unfold collides. simpl. intuition congruence.
      * right. by exists (r0 :: before), r, after.
    + intros [[H Hu]|(before & r & after & Hd & -> & -> & Hu)].
      * inversion Hu as [|? ? Hr Hrest]; subst. left. split; [|done].
        apply upsert_lookup_Some. right.
        unfold collides in Hr. simpl in Hr. intuition congruence.
      * destruct before as [|b before]; simpl in Hd; inversion Hd; subst.
        -- left. split; [apply upsert_lookup_self|done].
        -- right. by exists before, r, after.
Qed.

(** X9: [load_data] keeps the e-mails of the table distinct: when no two
    rows share an e-mail before the call, none do after it, whichever
    statements fail. *)
Theorem X9_emails_stay_unique fault data db :
  unique_emails (rows_of db) ->
  unique_emails (rows_of (load_data fault data db).2).
Proof.
  intros Hu. rewrite load_data_rows. destruct (forallb binds data); simpl; [|done].
  by apply load_rows_with_unique_emails.
Qed.

Lemma X9_emails_stay_unique_witness :
  unique_emails (rows_of (load_data no_fault c9_batch NoFile).2).
Proof.
  apply (X9_emails_stay_unique no_fault c9_batch NoFile).
  intros k1 k2 x1 x2 H. simpl in H. by rewrite lookup_empty in H.
Defined.

(** X10: after [load_data] on a batch whose ids and ages fit SQLite's
    64-bit INTEGER, when no statement fails, the table holds exactly the
    earlier rows that no record of the batch collides with (on id or on
    e-mail), and the row of every record that no later record of the batch
    collides with. *)
Theorem X10_table_after_load data db k x :
  forallb binds data = true ->
  (rows_of (load_data no_fault data db).2 !! k = Some x <->
   (rows_of db !! k = Some x /\ untouched data (k, x)) \/
   (exists before r after,
       data = before ++ r :: after /\ k = c_id r /\ x = row_of r /\
       untouched after (c_id r, row_of r))).
Proof.
  intros Hb. rewrite load_data_no_fault by done. simpl.
  apply load_rows_lookup_iff.
Qed.

Lemma X10_table_after_load_witness :
  rows_of (load_data no_fault c9_batch NoFile).2 !! 1
  = Some (mkRow "Rob" "bob@x.org" None "Oslo" "d").
Proof.
  apply (proj2 (X10_table_after_load c9_batch NoFile 1
                  (mkRow "Rob" "bob@x.org" None "Oslo" "d") eq_refl)).
  right.
  exists [mkClean 0 "Ann" "ann@x.org" None "Oslo" "d";
          mkClean 0 "Bob" "bob@x.org" None "Oslo" "d"],
         (mkClean 1 "Rob" "bob@x.org" None "Oslo" "d"), [].
  repeat split. constructor.
Defined.



(** X12: [load_data] never deletes or changes a row that no record of the
    batch collides with on id or on e-mail, whichever statements fail. *)
Theorem X12_unrelated_rows_kept fault data db k x :
  rows_of db !! k = Some x ->
  untouched data (k, x) ->
  rows_of (load_data fault data db).2 !! k = Some x.
Proof.
  intros Hk Hu. rewrite load_data_rows. destruct (forallb binds data); simpl; [|done].
  by apply load_rows_with_keeps.
Qed.

Lemma X12_unrelated_rows_kept_witness :
  rows_of (load_data refuse_2 c8_batch
             (Users {[9 := mkRow "Zoe" "zoe@x.org" None "Rome" "c"]})).2 !! 9
  = Some (mkRow "Zoe" "zoe@x.org" None "Rome" "c").
Proof.
  apply X12_unrelated_rows_kept.
  - reflexivity.
  - repeat constructor; unfold collides; simpl; intros [?|?]; discriminate.
Defined.

Lemma load_data_distinct_stored data db r :
  forallb binds data = true ->
  NoDup (map c_id data) ->
  NoDup (map c_email data) ->
  In r data ->
  rows_of (load_data no_fault data db).2 !! c_id r = Some (row_of r).
Proof.
  intros Hb Hid Hem Hin. rewrite load_data_no_fault by done. simpl.
  apply in_split in Hin as (before & after & ->).
  apply load_rows_lookup_iff. right. exists before, r, after.
  repeat split.
  rewrite map_app in Hid, Hem. simpl in Hid, Hem.
  apply NoDup_app in Hid as (_ & _ & Hid). apply NoDup_cons in Hid as [Hid _].
  apply NoDup_app in Hem as (_ & _ & Hem). apply NoDup_cons in Hem as [Hem _].
  apply Forall_forall. intros r' Hr'. apply list_elem_of_In in Hr'.
  unfold collides. simpl. intros [Heq|Heq].
  - apply Hid. apply list_elem_of_In. rewrite Heq. by apply in_map.
  - apply Hem. apply list_elem_of_In. rewrite Heq. by apply in_map.
Qed.

(** X13: when the records of a batch have distinct ids and distinct
    e-mails, their ids and ages fit SQLite's 64-bit INTEGER and no
    statement fails, every record of the batch is in the table after
    [load_data], under its id and with its fields. *)
Theorem X13_distinct_batch_stored data db r :
  forallb binds data = true ->
  NoDup (map c_id data) ->
  NoDup (map c_email data) ->
  In r data ->
  rows_of (load_data no_fault data db).2 !! c_id r = Some (row_of r).
Proof. apply load_data_distinct_stored. Qed.

Lemma X13_distinct_batch_stored_witness :
  rows_of (load_data no_fault c8_batch NoFile).2 !! 2
  = Some (mkRow "Bob" "bob@x.org" (Some 30) "Rome" "d").
Proof.
  apply (X13_distinct_batch_stored c8_batch NoFile
           (mkClean 2 "Bob" "bob@x.org" (Some 30) "Rome" "d")).
  - reflexivity.
  - repeat constructor; rewrite ?elem_of_cons, ?elem_of_nil; simpl; intuition lia.
  - repeat constructor; rewrite ?elem_of_cons, ?elem_of_nil; simpl;
      intuition discriminate.
  - simpl. auto.
Defined.

(** ** The pipeline: further lemmas *)

Lemma commits_app out out' : commits (out ++ out') = (commits out + commits out')%nat.
Proof. unfold commits. by rewrite omap_app, length_app. Qed.

Lemma statements_cons_print l out : statements (Printed l :: out) = statements out.
Proof. reflexivity. Qed.

Lemma commits_cons_print l out : commits (Printed l :: out) = commits out.
Proof. reflexivity. Qed.

Lemma commits_cons e out : commits (e :: out) = (commits [e] + commits out)%nat.
Proof. apply (commits_app [e] out). Qed.

Lemma statements_nil_commits out : statements out = [] -> commits out = 0%nat.
Proof.
  induction out as [|e out IH]; [done|]. destruct e as [l|s]; [exact IH|].
  intros H. inversion H.
Qed.

Lemma extract_data_statements csv_reader open_ csv_file :
  statements (extract_data csv_reader open_ csv_file).1 = [].
Proof.
  rewrite extract_data_eq. by destruct (open_ csv_file) as [text|[]].
Qed.

Lemma DictReader_blank csv_reader text :
  csv_reader text = [] \/
  (exists fieldnames rows,
      csv_reader text = fieldnames :: rows /\ forallb blank rows = true) ->
  DictReader csv_reader text = [].
Proof.
  unfold DictReader. intros [->|(fieldnames & rows & -> & Hb)]; [done|].
  induction rows as [|row rows IH]; [done|]. simpl in *.
  apply andb_true_iff in Hb as [-> Hb]. simpl. by apply IH.
Qed.

Lemma transform_data_nil today :
  transform_data today [] = ([Printed PTransforming; Printed (PTransformed 0)], Returned []).
Proof. reflexivity. Qed.




(** X15: a run of the pipeline ends in one of three ways: it makes no
    call on the database and leaves the target as it was; or it returns
    normally after exactly one commit, the target then holding the [users]
    table; or it raises [OverflowError] from the load without any commit,
    the target then holding the [users] table with the rows it had before.
    In every case a run that raises has changed no row of the target. *)
Theorem X15_target_changes_only_by_commit csv_reader open_ today fault
    source_file target_db trace o db :
  run_etl_pipeline csv_reader open_ today fault source_file target_db
  = ((trace, o), db) ->
  (statements trace = [] /\ db = target_db) \/
  (o = Returned tt /\ commits trace = 1%nat /\ exists rows, db = Users rows) \/
  (o = Raised OverflowError /\ commits trace = 0%nat /\
   db = Users (rows_of target_db)).
Proof.
  rewrite run_etl_pipeline_eq.
  pose proof (extract_data_statements csv_reader open_ source_file) as He.
  destruct (extract_data csv_reader open_ source_file) as [out [[|r data]|e]];
    simpl in He.
  - intros [= <- <- <-]. left. split; [|done].
    by rewrite ?statements_cons_print, !statements_app, He.
  - pose proof (transform_data_statements today (r :: data)) as Ht.
    destruct (transform_data today (r :: data)) as [out' [clean|e]]; simpl in Ht.
    + destruct (forallb binds clean) eqn:Hb.
      * destruct (load_data_trace fault clean target_db Hb)
          as (lo & -> & _ & _ & Hc & _).
        cbn [fst snd]. intros [= <- <- <-]. right. left.
        split; [done|]. split; [|eauto].
        rewrite !commits_cons_print, !commits_app, commits_cons_print.
        rewrite (commits_cons (Sql SConnect)),
          (commits_cons (Sql SCreateTableIfNotExists)).
        rewrite !commits_app, Hc.
        rewrite (statements_nil_commits _ He), (statements_nil_commits _ Ht).
        reflexivity.
      * destruct (load_data_overflow fault clean target_db Hb) as (lo & -> & Hc).
        cbn [fst snd]. intros [= <- <- <-]. right. right.
        split; [done|]. split; [|done].
        rewrite !commits_cons_print, !commits_app, commits_cons_print.
        rewrite (commits_cons (Sql SConnect)),
          (commits_cons (Sql SCreateTableIfNotExists)).
        rewrite Hc.
        rewrite (statements_nil_commits _ He), (statements_nil_commits _ Ht).
        reflexivity.
    + intros [= <- <- <-]. left. split; [|done].
      by rewrite ?statements_cons_print, !statements_app, He, Ht.
  - intros [= <- <- <-]. left. split; [|done].
    by rewrite ?statements_cons_print, ?statements_app, He.
Qed.

Lemma X15_target_changes_only_by_commit_witness :
  (statements (run_etl_pipeline plain_reader (one_file "in.csv" sample_csv) "d"
                 no_fault "in.csv" NoFile).1.1 = [] /\
   (run_etl_pipeline plain_reader (one_file "in.csv" sample_csv) "d"
      no_fault "in.csv" NoFile).2 = NoFile) \/
  ((run_etl_pipeline plain_reader (one_file "in.csv" sample_csv) "d"
      no_fault "in.csv" NoFile).1.2 = Returned tt /\
   commits (run_etl_pipeline plain_reader (one_file "in.csv" sample_csv) "d"
              no_fault "in.csv" NoFile).1.1 = 1%nat /\
   exists rows,
     (run_etl_pipeline plain_reader (one_file "in.csv" sample_csv) "d"
        no_fault "in.csv" NoFile).2 = Users rows) \/
  ((run_etl_pipeline plain_reader (one_file "in.csv" sample_csv) "d"
      no_fault "in.csv" NoFile).1.2 = Raised OverflowError /\
   commits (run_etl_pipeline plain_reader (one_file "in.csv" sample_csv) "d"
              no_fault "in.csv" NoFile).1.1 = 0%nat /\
   (run_etl_pipeline plain_reader (one_file "in.csv" sample_csv) "d"
      no_fault "in.csv" NoFile).2 = Users (rows_of NoFile)).
Proof.
  apply (X15_target_changes_only_by_commit plain_reader
           (one_file "in.csv" sample_csv) "d" no_fault "in.csv" NoFile).
  reflexivity.
Defined.

(** X16: a source that opens but holds no data (no row at all, or only
    blank rows after the header) ends the run like a missing source: zero
    records are reported, then the no-data notice, and the target is not
    touched. *)
Theorem X16_source_without_rows csv_reader open_ today fault source_file
    target_db text :
  open_ source_file = Returned text ->
  csv_reader text = [] \/
  (exists fieldnames rows,
      csv_reader text = fieldnames :: rows /\ forallb blank rows = true) ->
  run_etl_pipeline csv_reader open_ today fault source_file target_db
  = ((heading ++ [Printed (PExtracting source_file); Printed (PExtracted 0);
                  Printed PNoData],
      Returned tt),
     target_db).
Proof.
  intros Hopen Hrows.
  rewrite run_etl_pipeline_eq, extract_data_eq, Hopen.
  by rewrite (DictReader_blank _ _ Hrows).
Qed.

Lemma X16_source_without_rows_witness :
  run_etl_pipeline plain_reader
    (one_file "in.csv" ("id,email" ++ String "010" (String "010" EmptyString)))
    "d" no_fault "in.csv" NoFile
  = ((heading ++ [Printed (PExtracting "in.csv"); Printed (PExtracted 0);
                  Printed PNoData],
      Returned tt),
     NoFile).
Proof.
  apply (X16_source_without_rows plain_reader _ "d" no_fault "in.csv" NoFile
           ("id,email" ++ String "010" (String "010" EmptyString))).
  - reflexivity.
  - right. exists ["id"; "email"]%string, [[]]. split; reflexivity.
Defined.

(** X17: end to end, when the source opens, [transform_data] returns and
    the cleaned records have distinct ids and distinct e-mails and ids and
    ages that fit SQLite's 64-bit INTEGER, every cleaned record is in the
    target table after the run, under its id and with its cleaned fields
    (no statement failing). *)
Theorem X17_valid_records_stored csv_reader open_ today source_file target_db
    text out clean c :
  open_ source_file = Returned text ->
  transform_data today (DictReader csv_reader text) = (out, Returned clean) ->
  forallb binds clean = true ->
  NoDup (map c_id clean) ->
  NoDup (map c_email clean) ->
  In c clean ->
  rows_of (run_etl_pipeline csv_reader open_ today no_fault
             source_file target_db).2 !! c_id c
  = Some (row_of c).
Proof.
  intros Hopen Ht Hb Hid Hem Hin.
  rewrite run_etl_pipeline_target, extract_data_eq, Hopen.
  destruct (DictReader csv_reader text) as [|r data] eqn:Hd.
  - rewrite transform_data_nil in Ht. inversion Ht; subst. destruct Hin.
  - rewrite Ht. by apply load_data_distinct_stored.
Qed.

Lemma X17_valid_records_stored_witness :
  rows_of (run_etl_pipeline plain_reader (one_file "in.csv" sample_csv)
             "2024-01-01" no_fault "in.csv" NoFile).2
    !! c_id (mkClean 1 "Alice" "a@b.com" (Some 25) "Ny" "2024-01-01")
  = Some (row_of (mkClean 1 "Alice" "a@b.com" (Some 25) "Ny" "2024-01-01")).
Proof.
  eapply (X17_valid_records_stored plain_reader (one_file "in.csv" sample_csv)
            "2024-01-01" "in.csv" NoFile sample_csv).
  - reflexivity.
  - vm_compute. reflexivity.
  - reflexivity.
  - repeat constructor. rewrite elem_of_nil. tauto.
  - repeat constructor. rewrite elem_of_nil. tauto.
  - simpl. auto.
Defined.

(** ** [categorize_salary] *)

(** X18: [categorize_salary] is monotone: a salary that is not lower gets
    a label that is not lower in the order Low, Medium, High; the labels
    change exactly at 75000 and at 85000. *)
Theorem X18_categorize_salary_monotone salary1 salary2 :
  salary1 <= salary2 ->
  (category_rank (categorize_salary salary1)
   <= category_rank (categorize_salary salary2))%nat /\
  (categorize_salary salary1 <> categorize_salary salary2 ->
   salary1 < 75000 <= salary2 \/ salary1 < 85000 <= salary2).
Proof.
  intros Hle. unfold categorize_salary.
  destruct (salary1 <? 75000) eqn:A1, (salary1 <? 85000) eqn:A2,
    (salary2 <? 75000) eqn:B1, (salary2 <? 85000) eqn:B2;
    rewrite ?Z.ltb_lt, ?Z.ltb_ge in *; (split; [try (vm_compute; lia); lia|]);
    intros Hne; try lia; by destruct Hne.
Qed.

Lemma X18_categorize_salary_monotone_witness :
  (category_rank (categorize_salary 74999)
   <= category_rank (categorize_salary 75000))%nat /\
  (categorize_salary 74999 <> categorize_salary 75000 ->
   74999 < 75000 <= 75000 \/ 74999 < 85000 <= 75000).
Proof. apply X18_categorize_salary_monotone. lia. Defined.
